(** * CodeDAO dashboard SDK: the activity log store and its schema validator

    A shallow embedding of [src/schema.js] (the JSON schema of an activity
    record) and of the [AgentLogger] class (log, getActivities,
    getStatistics, clear, exportActivities, importActivities), followed by
    the properties of the store.

    Modelling conventions.
    - JavaScript values that travel through the store are JSON values
      ([json]); strings are sequences of characters, numbers are rationals:
      the finite numbers.  The first part of the development is the program
      on these values.  A number can also be [Infinity], [-Infinity] or
      [NaN], which [JSON.stringify] writes as [null]: the module [Wide]
      embeds the validator and the store once more over all values, the
      properties that depend on such numbers are stated there, and the
      last part shows that the two embeddings agree on finite numbers.
    - [localStorage] is one slot ([STORAGE_KEY]) that holds a text or
      nothing.  A text is identified with the JSON value that [JSON.parse]
      reads from it ([Doc]); texts that [JSON.parse] rejects are [Junk], and
      the empty string is kept apart because the code tests it for
      truthiness.  [JSON.stringify] of a JSON value is the text that denotes
      it; white space (the pretty printing of the export) is not observable.
    - [localStorage] itself does not fail: the exceptions of the model are
      those the program's own data can raise ([SyntaxError] of [JSON.parse],
      [TypeError] of a method call on a value that has no such method).
    - The arguments of [log] are JSON values or [undefined]; a limit is an
      integer or absent.  [Date.now() + Math.random()] and
      [new Date().toISOString()] are supplied by the host and appear as
      arguments [id] and [timestamp].
    - Listeners of the dispatched events read the store and do not write it.
    - The format checks of the schema ([date-time], [uri]) belong to the Ajv
      library, not to this repository: they are a parameter, as is the
      conversion of a number to a property key. *)

From Stdlib Require Import List String Ascii ZArith QArith Bool Arith Lia.
From Stdlib Require Import DecimalString.
From Stdlib Require Import Sorting.Sorted Sorting.Permutation.
Import ListNotations.
Set Warnings "-register-all".
Local Close Scope Q_scope.
Local Open Scope string_scope.
Local Open Scope list_scope.

(** ** JSON values *)

Inductive json : Type :=
| JNull
| JBool (b : bool)
| JNum (q : Q)
| JStr (s : string)
| JArr (items : list json)
| JObj (props : list (string * json)).

(** [o[k]] on the own properties of an object. *)
Fixpoint get_prop {A : Type} (k : string) (props : list (string * A)) : option A :=
  match props with
  | [] => None
  | (k', v) :: rest => if String.eqb k k' then Some v else get_prop k rest
  end.

Definition has_prop {A : Type} (k : string) (props : list (string * A)) : bool :=
  match get_prop k props with Some _ => true | None => false end.

Definition mem_string (k : string) (l : list string) : bool :=
  existsb (String.eqb k) l.

(** ** The schema language (the keywords that [schema.js] uses) *)

Inductive jtype := TNull | TBoolean | TObject | TArray | TNumber | TInteger | TString.

(** The one shape of pattern of the schema: [^[c1-d1c2-d2...]+$]. *)
Inductive regex := AnchoredPlus (ranges : list (ascii * ascii)).

Inductive schema : Type := Schema {
  s_type : list jtype;                     (* type: one name or a list; [] when absent *)
  s_required : list string;
  s_properties : list (string * schema);
  s_additionalProperties : bool;           (* true when absent *)
  s_items : option schema;
  s_enum : option (list string);           (* every enum of schema.js lists strings *)
  s_minLength : option nat;
  s_pattern : option regex;
  s_format : option string;
  s_minimum : option Q;
  s_maximum : option Q
}.

Definition typed (ts : list jtype) : schema :=
  Schema ts [] [] true None None None None None None None.

Definition with_minLength (n : nat) (s : schema) : schema :=
  Schema (s_type s) (s_required s) (s_properties s) (s_additionalProperties s)
         (s_items s) (s_enum s) (Some n) (s_pattern s) (s_format s)
         (s_minimum s) (s_maximum s).

Definition with_pattern (r : regex) (s : schema) : schema :=
  Schema (s_type s) (s_required s) (s_properties s) (s_additionalProperties s)
         (s_items s) (s_enum s) (s_minLength s) (Some r) (s_format s)
         (s_minimum s) (s_maximum s).

Definition with_format (f : string) (s : schema) : schema :=
  Schema (s_type s) (s_required s) (s_properties s) (s_additionalProperties s)
         (s_items s) (s_enum s) (s_minLength s) (s_pattern s) (Some f)
         (s_minimum s) (s_maximum s).

Definition with_enum (vs : list string) (s : schema) : schema :=
  Schema (s_type s) (s_required s) (s_properties s) (s_additionalProperties s)
         (s_items s) (Some vs) (s_minLength s) (s_pattern s) (s_format s)
         (s_minimum s) (s_maximum s).

Definition with_minimum (q : Q) (s : schema) : schema :=
  Schema (s_type s) (s_required s) (s_properties s) (s_additionalProperties s)
         (s_items s) (s_enum s) (s_minLength s) (s_pattern s) (s_format s)
         (Some q) (s_maximum s).

Definition with_maximum (q : Q) (s : schema) : schema :=
  Schema (s_type s) (s_required s) (s_properties s) (s_additionalProperties s)
         (s_items s) (s_enum s) (s_minLength s) (s_pattern s) (s_format s)
         (s_minimum s) (Some q).

Definition array_of (item : schema) : schema :=
  Schema [TArray] [] [] true (Some item) None None None None None None.

Definition object (required : list string) (properties : list (string * schema))
           (additional : bool) : schema :=
  Schema [TObject] required properties additional None None None None None None None.

(** *** schema.js, lines 6-128 *)

Definition type_enum : list string :=
  [ "commit"; "analysis"; "detection"; "validation"; "monitoring";
    "documentation"; "security"; "optimization"; "refactoring"; "deployment";
    "collaboration"; "info" ].

Definition status_enum : list string :=
  [ "success"; "processing"; "error"; "warning"; "info" ].

Definition metadata_schema : schema :=
  object []
    [ ("commitHash", with_pattern (AnchoredPlus [("a", "f"); ("0", "9")]%char)
                       (typed [TString]));
      ("filePath", typed [TString]);
      ("lineNumbers", array_of (typed [TInteger]));
      ("duration", with_minimum 0%Q (typed [TNumber]));
      ("confidence", with_maximum 1%Q (with_minimum 0%Q (typed [TNumber])));
      ("tags", array_of (typed [TString]));
      ("relatedActivities", array_of (typed [TNumber; TString]));
      ("repository", typed [TString]);
      ("branch", typed [TString]);
      ("pullRequest", typed [TInteger]);
      ("issue", typed [TInteger]);
      ("errorMessage", typed [TString]);
      ("url", with_format "uri" (typed [TString])) ]
    true.

Definition id_schema : schema := typed [TNumber; TString].
Definition timestamp_schema : schema := with_format "date-time" (typed [TString]).
Definition agent_schema : schema := with_minLength 1 (typed [TString]).
Definition action_schema : schema := with_minLength 1 (typed [TString]).
Definition type_schema : schema := with_enum type_enum (typed [TString]).
Definition status_schema : schema := with_enum status_enum (typed [TString]).

Definition activity_schema : schema :=
  object [ "id"; "timestamp"; "agent"; "action"; "type"; "status" ]
    [ ("id", id_schema);
      ("timestamp", timestamp_schema);
      ("agent", agent_schema);
      ("action", action_schema);
      ("type", type_schema);
      ("status", status_schema);
      ("metadata", metadata_schema) ]
    false.

(** ** Validation (what [ajv.compile(schema)] checks) *)

Definition is_integer (q : Q) : bool :=
  (Qnum q mod Zpos (Qden q) =? 0)%Z.

Definition has_type (d : json) (t : jtype) : bool :=
  match t, d with
  | TNull, JNull => true
  | TBoolean, JBool _ => true
  | TObject, JObj _ => true
  | TArray, JArr _ => true
  | TNumber, JNum _ => true
  | TInteger, JNum q => is_integer q
  | TString, JStr _ => true
  | _, _ => false
  end.

Definition check_type (ts : list jtype) (d : json) : bool :=
  match ts with
  | [] => true
  | _ => existsb (has_type d) ts
  end.

Definition check_enum (e : option (list string)) (d : json) : bool :=
  match e with
  | None => true
  | Some vs => match d with JStr s => mem_string s vs | _ => false end
  end.

Definition in_range (c : ascii) (r : ascii * ascii) : bool :=
  Nat.leb (nat_of_ascii (fst r)) (nat_of_ascii c) &&
  Nat.leb (nat_of_ascii c) (nat_of_ascii (snd r)).

Fixpoint all_chars (p : ascii -> bool) (s : string) : bool :=
  match s with
  | EmptyString => true
  | String c rest => p c && all_chars p rest
  end.

Definition regex_test (r : regex) (s : string) : bool :=
  match r with
  | AnchoredPlus ranges =>
      negb (String.eqb s "") && all_chars (fun c => existsb (in_range c) ranges) s
  end.

Definition opt_check {A : Type} (o : option A) (p : A -> bool) : bool :=
  match o with None => true | Some a => p a end.

Section Validator.

(** [format_ok name s]: the string [s] passes Ajv's format [name]. *)
Variable format_ok : string -> string -> bool.

Fixpoint conforms (s : schema) (d : json) {struct s} : bool :=
  match s with
  | Schema ty req props additional items enum minLen pat fmt lo hi =>
      check_type ty d && check_enum enum d &&
      match d with
      | JStr x =>
          opt_check minLen (fun n => Nat.leb n (String.length x)) &&
          opt_check pat (fun r => regex_test r x) &&
          opt_check fmt (fun f => format_ok f x)
      | JNum q =>
          opt_check lo (fun m => Qle_bool m q) &&
          opt_check hi (fun m => Qle_bool q m)
      | JArr l =>
          match items with
          | None => true
          | Some si => forallb (conforms si) l
          end
      | JObj fields =>
          forallb (fun k => has_prop k fields) req &&
          forallb (fun p => match get_prop (fst p) fields with
                            | Some v => conforms (snd p) v
                            | None => true
                            end) props &&
          (additional ||
           forallb (fun kv => mem_string (fst kv) (map fst props)) fields)
      | _ => true
      end
  end.

(** [AgentLogger.validate]. *)
Definition validate (d : json) : bool := conforms activity_schema d.

End Validator.

(** ** The host: one [localStorage] slot, the event target and the console *)

(** A text held by the slot or handed to [importActivities].  [Doc j] is a
    text that [JSON.parse] reads as [j]; [Raw s] is the string [s], which
    [JSON.parse] rejects (the empty string among them).  A text with a
    numeral too large for a double, which [JSON.parse] reads as an
    infinity, is a [Wide.Doc]. *)
Inductive text := Doc (j : json) | Raw (s : string).

Inductive exn := SyntaxError | TypeError.

(** [codedao:activity] (with its [detail]), [codedao:cleared], [codedao:imported]. *)
Inductive event := Activity (detail : json) | Cleared | Imported.

Inductive diagnostic :=
| InvalidActivityFormat            (* console.warn of log *)
| InvalidSkipped (n : nat)         (* console.warn of importActivities *)
| FailedToLog (error : exn)
| FailedToRetrieve (error : exn)
| FailedToClear (error : exn)
| FailedToImport (error : exn).

(** What the program does to its environment, in the order it does it.  A
    dispatched event is delivered synchronously: [seen] is the slot as a
    listener that reads it from inside its handler finds it. *)
Inductive effect :=
| SetItem (t : text)
| RemoveItem
| Dispatch (e : event) (seen : option text)
| Console (d : diagnostic).

Record World := mkWorld {
  storage : option text;        (* localStorage[STORAGE_KEY]; None when absent *)
  trace : list effect           (* oldest first *)
}.

Definition fresh_world : World := mkWorld None [].

(** *** Computations that change the world and may throw *)

Inductive result (A : Type) := Ok (a : A) | Throw (e : exn).
Arguments Ok {A} a.
Arguments Throw {A} e.

Definition M (A : Type) : Type := World -> result A * World.

Definition ret {A : Type} (a : A) : M A := fun w => (Ok a, w).

Definition throw {A : Type} (e : exn) : M A := fun w => (Throw e, w).

Definition bind {A B : Type} (c : M A) (k : A -> M B) : M B :=
  fun w => match c w with
           | (Ok a, w') => k a w'
           | (Throw e, w') => (Throw e, w')
           end.

(** [try { c } catch (error) { handler error }]: the effects of [c] up to
    the throw stay. *)
Definition try_catch {A : Type} (c : M A) (handler : exn -> M A) : M A :=
  fun w => match c w with
           | (Ok a, w') => (Ok a, w')
           | (Throw e, w') => handler e w'
           end.

Declare Scope js_scope.
Delimit Scope js_scope with js.
Notation "x <- c ;; k" := (bind c (fun x => k))
  (at level 61, c at next level, right associativity) : js_scope.
Notation "c ;; k" := (bind c (fun _ => k))
  (at level 61, right associativity) : js_scope.
Local Open Scope js_scope.

Definition emit (e : effect) : M unit :=
  fun w => (Ok tt, mkWorld (storage w) (trace w ++ [e])).

Definition localStorage_getItem : M (option text) :=
  fun w => (Ok (storage w), w).

Definition localStorage_setItem (t : text) : M unit :=
  fun w => (Ok tt, mkWorld (Some t) (trace w ++ [SetItem t])).

Definition localStorage_removeItem : M unit :=
  fun w => (Ok tt, mkWorld None (trace w ++ [RemoveItem])).

Definition dispatchEvent (e : event) : M unit :=
  fun w => (Ok tt, mkWorld (storage w) (trace w ++ [Dispatch e (storage w)])).

Definition console (d : diagnostic) : M unit := emit (Console d).

Definition JSON_parse (t : text) : M json :=
  match t with
  | Doc j => ret j
  | Raw _ => throw SyntaxError
  end.

(** The text that denotes [j]: every number of a [json] is finite. *)
Definition JSON_stringify (j : json) : text := Doc j.

(** Truthiness of [localStorage.getItem(...)]: null and "" are falsy. *)
Definition truthy_item (stored : option text) : option text :=
  match stored with
  | None => None
  | Some (Raw "") => None
  | Some t => Some t
  end.

(** Truthiness of a [limit]: null (the default) and 0 are falsy. *)
Definition truthy_limit (limit : option Z) : option Z :=
  match limit with
  | None => None
  | Some n => if (n =? 0)%Z then None else Some n
  end.

(** The end index of [slice(0, n)] on a sequence of [len] elements. *)
Definition slice_end (len : nat) (n : Z) : nat :=
  if (n <? 0)%Z then Z.to_nat (Z.max (Z.of_nat len + n) 0)
  else Z.to_nat (Z.min n (Z.of_nat len)).

(** [x.slice(0, n)]: arrays and strings have the method. *)
Definition slice (x : json) (n : Z) : M json :=
  match x with
  | JArr l => ret (JArr (firstn (slice_end (List.length l) n) l))
  | JStr s => ret (JStr (String.substring 0 (slice_end (String.length s) n) s))
  | _ => throw TypeError
  end.

(** [x.unshift(a)]: only arrays have the method; the elements afterwards. *)
Definition unshift (x : json) (a : json) : M (list json) :=
  match x with
  | JArr l => ret (a :: l)
  | _ => throw TypeError
  end.

(** ** AgentLogger *)

Definition default {A : Type} (d : A) (o : option A) : A :=
  match o with Some a => a | None => d end.

(** A property whose value is [undefined] ([None]): the validator's
    [required] and [properties] checks and [JSON.stringify] all treat it as
    missing, so the object is built without it. *)
Definition field (k : string) (v : option json) : list (string * json) :=
  match v with Some j => [(k, j)] | None => [] end.

(** *** The counting objects of [getStatistics]

    [byAgent], [byType] and [byStatus] start as [{}]: ordinary objects,
    which inherit from [Object.prototype].  A value stored under a key is a
    count, or, when the first read of the key found an inherited member, the
    text of that member followed by as many characters 1 as there were
    increments ([Glued]). *)

Inductive tally := Count (n : nat) | Glued (inherited : string) (ones : nat).

(** Own properties, in order of creation. *)
Definition jsobject : Type := list (string * tally).

Definition Object_prototype_names : list string :=
  [ "constructor"; "__defineGetter__"; "__defineSetter__"; "hasOwnProperty";
    "__lookupGetter__"; "__lookupSetter__"; "isPrototypeOf";
    "propertyIsEnumerable"; "toString"; "valueOf"; "__proto__";
    "toLocaleString" ].

(** [o[k] = v] on own properties: an existing key keeps its place, a new one
    goes last. *)
Fixpoint set_prop (k : string) (v : tally) (o : jsobject) : jsobject :=
  match o with
  | [] => [(k, v)]
  | (k', v') :: rest =>
      if String.eqb k k' then (k, v) :: rest else (k', v') :: set_prop k v rest
  end.

(** [o[k] = (o[k] || 0) + 1].  An inherited function is truthy and [+ 1]
    concatenates; the [__proto__] accessor returns an object and its setter
    ignores the string it is then given. *)
Definition count_key (o : jsobject) (k : string) : jsobject :=
  match get_prop k o with
  | Some (Count n) => set_prop k (Count (n + 1)) o
  | Some (Glued f m) => set_prop k (Glued f (m + 1)) o
  | None =>
      if String.eqb k "__proto__" then o
      else if mem_string k Object_prototype_names then set_prop k (Glued k 1) o
      else set_prop k (Count 1) o
  end.

(** The order in which [Object.keys] and [Object.entries] list the own keys:
    array indices (canonical decimal strings below 2^32 - 1) first, in
    ascending numeric order, then the other keys in order of creation. *)
Definition digit_value (c : ascii) : option N :=
  let n := N_of_ascii c in
  if (N.leb 48 n && N.leb n 57)%bool then Some (n - 48)%N else None.

Fixpoint digits_value (s : string) (acc : N) : option N :=
  match s with
  | EmptyString => Some acc
  | String c rest =>
      match digit_value c with
      | Some d => digits_value rest (10 * acc + d)%N
      | None => None
      end
  end.

Definition array_index (k : string) : option N :=
  match k with
  | EmptyString => None
  | String c rest =>
      if (Ascii.eqb c "0" && negb (String.eqb rest ""))%bool then None
      else match digits_value k 0 with
           | Some n => if (n <? 2 ^ 32 - 1)%N then Some n else None
           | None => None
           end
  end.

Fixpoint insert_index (p : N * string) (l : list (N * string)) : list (N * string) :=
  match l with
  | [] => [p]
  | q :: rest => if (fst p <=? fst q)%N then p :: l else q :: insert_index p rest
  end.

Fixpoint index_keys (keys : list string) : list (N * string) :=
  match keys with
  | [] => []
  | k :: rest =>
      match array_index k with
      | Some n => insert_index (n, k) (index_keys rest)
      | None => index_keys rest
      end
  end.

Definition is_index (k : string) : bool :=
  match array_index k with Some _ => true | None => false end.

Definition Object_keys {A : Type} (o : list (string * A)) : list string :=
  map snd (index_keys (map fst o)) ++ filter (fun k => negb (is_index k)) (map fst o).

Record statistics := mkStatistics {
  total : nat;
  byAgent : jsobject;
  byType : jsobject;
  byStatus : jsobject;
  recentActivity : list json
}.

(** [l.forEach(f)] with the accumulated state made explicit. *)
Fixpoint forEach {S : Type} (l : list json) (f : S -> json -> M S) (s : S) : M S :=
  match l with
  | [] => ret s
  | x :: rest => bind (f s x) (fun s' => forEach rest f s')
  end.

(** [activity[k]] for a key that no prototype defines: [None] is [undefined];
    reading a property of [null] throws. *)
Definition read_prop (k : string) (activity : json) : M (option json) :=
  match activity with
  | JNull => throw TypeError
  | JObj props => ret (get_prop k props)
  | _ => ret None
  end.

Module AgentLogger.

(** [STORAGE_KEY] names the one slot of the model. *)
Definition STORAGE_KEY : string := "codedao_ai_activities".

Definition MAX_ACTIVITIES : nat := 1000.

Section Logger.

Variable format_ok : string -> string -> bool.

(** [Number.prototype.toString], used when a number serves as property key. *)
Variable Number_toString : Q -> string.

(** The object literal of [log].  [id] is [Date.now() + Math.random()],
    [timestamp] is [new Date().toISOString()]: both come from the host. *)
Definition activity_of (id : Q) (timestamp : string)
           (agent action : option json) (type status metadata : json) : json :=
  JObj ([("id", JNum id); ("timestamp", JStr timestamp)]
          ++ field "agent" agent ++ field "action" action
          ++ [("type", type); ("status", status); ("metadata", metadata)]).

(** [getActivities(limit = null)] *)
Definition getActivities (limit : option Z) : M json :=
  try_catch
    (stored <- localStorage_getItem ;;
     activities <- match truthy_item stored with
                   | Some t => JSON_parse t
                   | None => ret (JArr [])
                   end ;;
     match truthy_limit limit with
     | Some n => slice activities n
     | None => ret activities
     end)
    (fun error => console (FailedToRetrieve error) ;; ret (JArr [])).

(** [log(agent, action, type = 'info', status = 'success', metadata = {})];
    an argument that is omitted or [undefined] is [None]. *)
Definition log (id : Q) (timestamp : string)
           (agent action type status metadata : option json) : M bool :=
  let type := default (JStr "info") type in
  let status := default (JStr "success") status in
  let metadata := default (JObj []) metadata in
  let activity := activity_of id timestamp agent action type status metadata in
  if negb (validate format_ok activity) then
    console InvalidActivityFormat ;; ret false
  else
    try_catch
      (activities <- getActivities None ;;
       activities <- unshift activities activity ;;
       let activities :=
         if Nat.ltb MAX_ACTIVITIES (List.length activities)
         then firstn MAX_ACTIVITIES activities      (* splice(MAX_ACTIVITIES) *)
         else activities in
       localStorage_setItem (JSON_stringify (JArr activities)) ;;
       dispatchEvent (Activity activity) ;;
       ret true)
      (fun error => console (FailedToLog error) ;; ret false).

(** [clear()] *)
Definition clear : M bool :=
  try_catch
    (localStorage_removeItem ;;
     dispatchEvent Cleared ;;
     ret true)
    (fun error => console (FailedToClear error) ;; ret false).

(** [exportActivities()] *)
Definition exportActivities : M text :=
  activities <- getActivities None ;;
  ret (JSON_stringify activities).

(** [importActivities(jsonData)]: only arrays have [filter]. *)
Definition importActivities (jsonData : text) : M bool :=
  try_catch
    (activities <- JSON_parse jsonData ;;
     match activities with
     | JArr activities =>
         let validActivities := filter (validate format_ok) activities in
         (if negb (Nat.eqb (List.length validActivities) (List.length activities))
          then console (InvalidSkipped (List.length activities - List.length validActivities))
          else ret tt) ;;
         localStorage_setItem (JSON_stringify (JArr validActivities)) ;;
         dispatchEvent Imported ;;
         ret true
     | _ => throw TypeError
     end)
    (fun error => console (FailedToImport error) ;; ret false).

(** The string a value becomes when it is used as a property key. *)
Fixpoint ToString (j : json) : string :=
  match j with
  | JNull => "null"
  | JBool true => "true"
  | JBool false => "false"
  | JNum q => Number_toString q
  | JStr s => s
  | JArr l =>
      let fix parts (l : list json) : list string :=
        match l with
        | [] => []
        | x :: rest =>
            match x with JNull => "" | _ => ToString x end :: parts rest
        end in
      String.concat "," (parts l)
  | JObj _ => "[object Object]"
  end.

Definition property_key (v : option json) : string :=
  match v with
  | None => "undefined"
  | Some j => ToString j
  end.

(** The callback of [forEach] in [getStatistics]. *)
Definition count_activity (stats : statistics) (activity : json) : M statistics :=
  agent <- read_prop "agent" activity ;;
  type <- read_prop "type" activity ;;
  status <- read_prop "status" activity ;;
  ret (mkStatistics (total stats)
         (count_key (byAgent stats) (property_key agent))
         (count_key (byType stats) (property_key type))
         (count_key (byStatus stats) (property_key status))
         (recentActivity stats)).

(** [getStatistics()]: nothing catches what it throws.  A value that is
    not an array fails at the latest on [forEach]. *)
Definition getStatistics : M statistics :=
  activities <- getActivities None ;;
  match activities with
  | JArr activities =>
      let stats :=
        mkStatistics (List.length activities) [] [] []
                     (firstn (slice_end (List.length activities) 10) activities) in
      forEach activities count_activity stats
  | _ => throw TypeError
  end.

End Logger.

End AgentLogger.

Import AgentLogger.

(** ** Sequences of calls and the states they reach *)

Inductive call :=
| Log (id : Q) (timestamp : string) (agent action type status metadata : option json)
| Clear
| Import (jsonData : text).

Section Model.

Variable format_ok : string -> string -> bool.

#[local] Abbreviation valid := (validate format_ok).

Definition perform (c : call) (w : World) : World :=
  match c with
  | Log id ts agent action type status metadata =>
      snd (log format_ok id ts agent action type status metadata w)
  | Clear => snd (clear w)
  | Import jsonData => snd (importActivities format_ok jsonData w)
  end.

Definition perform_all (cs : list call) (w : World) : World :=
  fold_left (fun w c => perform c w) cs w.

Definition reachable (w : World) : Prop :=
  exists cs, w = perform_all cs fresh_world.

(** The slot is absent and stands for the empty collection, or holds the
    text of the array [l]. *)
Definition holds (w : World) (l : list json) : Prop :=
  (storage w = None /\ l = []) \/ storage w = Some (Doc (JArr l)).

(** What an unlimited query returns. *)
Definition collection (w : World) : result json := fst (getActivities None w).

(** The world after a successful append of [a] in front of [l]. *)
Definition appended (a : json) (l : list json) (w : World) : World :=
  let t := Doc (JArr (firstn MAX_ACTIVITIES (a :: l))) in
  mkWorld (Some t) (trace w ++ [SetItem t] ++ [Dispatch (Activity a) (Some t)]).

Definition candidate id ts (agent action type status metadata : option json) : json :=
  activity_of id ts agent action (default (JStr "info") type)
              (default (JStr "success") status) (default (JObj []) metadata).

(** The diagnostics of an import that skips [n] records. *)
Definition skipped (n : nat) : list effect :=
  match n with O => [] | _ => [Console (InvalidSkipped n)] end.

Definition imported (batch : list json) (w : World) : World :=
  let t := Doc (JArr (filter valid batch)) in
  mkWorld (Some t)
          (trace w ++ skipped (List.length batch - List.length (filter valid batch))
                 ++ [SetItem t] ++ [Dispatch Imported (Some t)]).

(** *** What each call does to the collection *)

Definition call_candidate (c : call) : option json :=
  match c with
  | Log id ts agent action type status metadata =>
      Some (candidate id ts agent action type status metadata)
  | _ => None
  end.

(** The records a sequence of calls appends, oldest first. *)
Definition accepted (cs : list call) : list json :=
  flat_map (fun c => match call_candidate c with
                     | Some a => if valid a then [a] else []
                     | None => []
                     end) cs.

(** The calls that discard the whole collection: [clear] and the import of
    an array. *)
Definition destroys (c : call) : bool :=
  match c with
  | Clear => true
  | Import (Doc (JArr _)) => true
  | _ => false
  end.

Definition after_call (c : call) (l : list json) : list json :=
  match c with
  | Log id ts agent action type status metadata =>
      let a := candidate id ts agent action type status metadata in
      if valid a then firstn MAX_ACTIVITIES (a :: l) else l
  | Clear => []
  | Import (Doc (JArr batch)) => filter valid batch
  | Import _ => l
  end.

Definition all_valid (l : list json) : Prop := Forall (fun r => valid r = true) l.

(** *** Limited queries *)

Definition limited (limit : option Z) (l : list json) : list json :=
  match truthy_limit limit with
  | Some n => firstn (slice_end (List.length l) n) l
  | None => l
  end.

End Model.

(** ** Statistics *)

(** Keys in order of first encounter in one pass from the left. *)
Definition first_seen (keys : list string) : list string :=
  fold_left (fun acc k => if mem_string k acc then acc else acc ++ [k]) keys [].

(** The string a record holds under [k] ("" when it holds none). *)
Definition field_string (k : string) (r : json) : string :=
  match r with
  | JObj props => match get_prop k props with Some (JStr s) => s | _ => "" end
  | _ => ""
  end.

Fixpoint tally_sum (o : jsobject) : nat :=
  match o with
  | [] => 0
  | (_, Count n) :: rest => n + tally_sum rest
  | (_, Glued _ _) :: rest => tally_sum rest
  end.

(** [o] counts [keys] exactly: its own keys were created in order of first
    encounter, every key that occurs maps to its number of occurrences, no
    other key is present, and the counts add up to the number of keys. *)
Definition tallied (keys : list string) (o : jsobject) : Prop :=
  map fst o = first_seen keys /\
  (forall k, get_prop k o
             = if Nat.eqb (count_occ string_dec keys k) 0 then None
               else Some (Count (count_occ string_dec keys k))) /\
  tally_sum o = List.length keys.

Definition index_value (k : string) : N :=
  match array_index k with Some n => n | None => 0%N end.

Definition ascending (keys : list string) : Prop :=
  Sorted (fun a b => (index_value a <= index_value b)%N) keys.

(** One step of the count, on a record whose three fields are strings. *)
Definition counted (stats : statistics) (r : json) : statistics :=
  mkStatistics (total stats)
    (count_key (byAgent stats) (field_string "agent" r))
    (count_key (byType stats) (field_string "type" r))
    (count_key (byStatus stats) (field_string "status" r))
    (recentActivity stats).

Definition by_index (p q : N * string) : Prop := (fst p <= fst q)%N.

(** ** A concrete instance, for running the model

    Formats: the shape [toISOString] prints for [date-time]; a scheme
    followed by a colon for [uri].  Numbers as property keys: the decimal
    digits of an integer (the instance is not meant for other numbers; the
    records below have strings in the counted fields). *)
Definition is_digit (c : ascii) : bool :=
  match digit_value c with Some _ => true | None => false end.

Fixpoint matches_shape (shape s : string) : bool :=
  match shape, s with
  | EmptyString, EmptyString => true
  | String p shape', String c s' =>
      (if Ascii.eqb p "d" then is_digit c else Ascii.eqb p c) && matches_shape shape' s'
  | _, _ => false
  end.

Fixpoint has_colon (s : string) : bool :=
  match s with
  | EmptyString => false
  | String c rest => Ascii.eqb c ":" || has_colon rest
  end.

Definition iso_formats (name s : string) : bool :=
  if String.eqb name "date-time" then matches_shape "dddd-dd-ddTdd:dd:dd.dddZ" s
  else if String.eqb name "uri" then has_colon s
  else false.

Definition integral_Number_toString (q : Q) : string :=
  NilZero.string_of_int (Z.to_int (Qnum q / Zpos (Qden q))).

Definition sample_timestamp : string := "2024-01-01T00:00:00.000Z".

(** [log(agent, 'Fixed syntax error', 'commit', 'success')] at a moment
    when the host supplies [id] and [sample_timestamp]. *)
Definition sample_call (id : Z) (agent : string) : call :=
  Log (inject_Z id) sample_timestamp (Some (JStr agent))
      (Some (JStr "Fixed syntax error")) (Some (JStr "commit"))
      (Some (JStr "success")) None.

(** The record that call assembles. *)
Definition sample (id : Z) (agent : string) : json :=
  JObj [("id", JNum (inject_Z id)); ("timestamp", JStr sample_timestamp);
        ("agent", JStr agent); ("action", JStr "Fixed syntax error");
        ("type", JStr "commit"); ("status", JStr "success"); ("metadata", JObj [])].

(** ** The filtered queries of AgentLogger

    [getActivitiesByAgent] and [getActivitiesByType] catch nothing: what
    [filter] or its callback throws reaches the caller. *)

(** [x === y] between a property that was read ([None] is [undefined]) and
    a value of the caller.  Objects and arrays are equal only to themselves,
    and a value read from the store is never the caller's object. *)
Definition strict_equal (x y : option json) : bool :=
  match x, y with
  | None, None => true
  | Some JNull, Some JNull => true
  | Some (JBool a), Some (JBool b) => Bool.eqb a b
  | Some (JNum p), Some (JNum q) => Qeq_bool p q
  | Some (JStr s), Some (JStr t) => String.eqb s t
  | _, _ => false
  end.

(** [l.filter(p)] with a callback that may throw. *)
Fixpoint Array_filter (l : list json) (p : json -> M bool) : M (list json) :=
  match l with
  | [] => ret []
  | x :: rest =>
      bind (p x) (fun keep =>
      bind (Array_filter rest p) (fun kept =>
      ret (if keep then x :: kept else kept)))
  end.

(** [x.filter(p)]: only arrays have the method. *)
Definition filter_method (x : json) (p : json -> M bool) : M (list json) :=
  match x with
  | JArr l => Array_filter l p
  | _ => throw TypeError
  end.

(** The callbacks [a => a.agent === agent] and [a => a.type === type]. *)
Definition field_is (k : string) (v : option json) (a : json) : M bool :=
  x <- read_prop k a ;;
  ret (strict_equal x v).

(** [limit ? activities.slice(0, limit) : activities] on an array. *)
Definition limit_array (activities : list json) (limit : option Z) : M json :=
  match truthy_limit limit with
  | Some n => slice (JArr activities) n
  | None => ret (JArr activities)
  end.

(** [getActivitiesByAgent(agent, limit = null)] *)
Definition getActivitiesByAgent (agent : option json) (limit : option Z) : M json :=
  activities <- getActivities None ;;
  activities <- filter_method activities (field_is "agent" agent) ;;
  limit_array activities limit.

(** [getActivitiesByType(type, limit = null)] *)
Definition getActivitiesByType (type : option json) (limit : option Z) : M json :=
  activities <- getActivities None ;;
  activities <- filter_method activities (field_is "type" type) ;;
  limit_array activities limit.

(** ** Dashboard *)

Module Dashboard.

(** The default of [options.maxActivities]. *)
Definition default_maxActivities : Z := 50.

(** The value of a select element, when it is one that filters:
    [filterAgent?.value] is falsy for a missing element ([None]) and for
    the empty value. *)
Definition filter_value (element : option string) : option string :=
  match element with
  | None => None
  | Some "" => None
  | Some v => Some v
  end.

(** One step [if (f?.value) activities = activities.filter(a => a.k === f.value)]. *)
Definition apply_filter (k : string) (element : option string) (activities : json) : M json :=
  match filter_value element with
  | Some v =>
      kept <- filter_method activities (field_is k (Some (JStr v))) ;;
      ret (JArr kept)
  | None => ret activities
  end.

(** [getFilteredActivities()]; [maxActivities] and [showFilters] are the
    options of the instance, the three elements are what
    [document.getElementById] finds, with their current values. *)
Definition getFilteredActivities (maxActivities : option Z) (showFilters : bool)
           (filterAgent filterType filterStatus : option string) : M json :=
  activities <- getActivities maxActivities ;;
  if showFilters then
    activities <- apply_filter "agent" filterAgent activities ;;
    activities <- apply_filter "type" filterType activities ;;
    apply_filter "status" filterStatus activities
  else ret activities.

(** A whole number in a template literal. *)
Definition show_integer (z : Z) : string := NilZero.string_of_int (Z.to_int z).

(** [formatTimestamp(timestamp)].  [now] is [new Date()]; both moments are
    whole milliseconds, and for differences below 2^52 ms the quotient by
    1000 in floating point has the floor of the exact quotient. *)
Definition formatTimestamp (now timestamp : Z) : string :=
  let diff := ((now - timestamp) / 1000)%Z in
  if (diff <? 60)%Z then show_integer diff ++ "s ago"
  else if (diff <? 3600)%Z then show_integer (diff / 60) ++ "m ago"
  else if (diff <? 86400)%Z then show_integer (diff / 3600) ++ "h ago"
  else show_integer (diff / 86400) ++ "d ago".

(** *** The configuration tables of schema.js, lines 133-215 *)

Record agent_style := mkAgentStyle {
  a_color : string; a_bgColor : string; a_lightBg : string;
  a_textColor : string; a_icon : string; a_name : string
}.

Record status_style := mkStatusStyle { s_icon : string; s_color : string; s_bg : string }.

Record type_style := mkTypeStyle { t_icon : string; t_color : string }.

Definition agentConfig : list (string * agent_style) :=
  [ ("Claude", mkAgentStyle "purple" "#8B5CF6" "#F3E8FF" "#7C3AED" "C" "Claude");
    ("ChatGPT", mkAgentStyle "green" "#10B981" "#ECFDF5" "#059669" "G" "ChatGPT");
    ("GPT-4", mkAgentStyle "blue" "#3B82F6" "#EFF6FF" "#2563EB" "4" "GPT-4");
    ("Copilot", mkAgentStyle "gray" "#6B7280" "#F9FAFB" "#4B5563" "Co" "GitHub Copilot") ].

Definition statusConfig : list (string * status_style) :=
  [ ("success", mkStatusStyle "fas fa-check-circle" "#10B981" "#ECFDF5");
    ("processing", mkStatusStyle "fas fa-spinner fa-spin" "#3B82F6" "#EFF6FF");
    ("error", mkStatusStyle "fas fa-exclamation-triangle" "#EF4444" "#FEF2F2");
    ("warning", mkStatusStyle "fas fa-exclamation-circle" "#F59E0B" "#FFFBEB");
    ("info", mkStatusStyle "fas fa-info-circle" "#6B7280" "#F9FAFB") ].

Definition typeConfig : list (string * type_style) :=
  [ ("commit", mkTypeStyle "fas fa-code-branch" "#8B5CF6");
    ("analysis", mkTypeStyle "fas fa-search" "#3B82F6");
    ("detection", mkTypeStyle "fas fa-bug" "#EF4444");
    ("validation", mkTypeStyle "fas fa-check-double" "#10B981");
    ("monitoring", mkTypeStyle "fas fa-eye" "#6B7280");
    ("documentation", mkTypeStyle "fas fa-file-alt" "#F59E0B");
    ("security", mkTypeStyle "fas fa-shield-alt" "#DC2626");
    ("optimization", mkTypeStyle "fas fa-tachometer-alt" "#059669");
    ("refactoring", mkTypeStyle "fas fa-code" "#7C3AED");
    ("deployment", mkTypeStyle "fas fa-rocket" "#DC2626");
    ("collaboration", mkTypeStyle "fas fa-comments" "#2563EB");
    ("info", mkTypeStyle "fas fa-info-circle" "#6B7280") ].

(** What [table[key]] yields on an object literal: an own entry, a member
    inherited from [Object.prototype], or [undefined]. *)
Inductive looked_up (A : Type) :=
| Own (a : A)
| Inherited (name : string)
| Undefined.
Arguments Own {A} a.
Arguments Inherited {A} name.
Arguments Undefined {A}.

Definition lookup {A : Type} (table : list (string * A)) (key : string) : looked_up A :=
  match get_prop key table with
  | Some a => Own a
  | None => if mem_string key Object_prototype_names then Inherited key else Undefined
  end.

(** [table[key] || table[fallback]]: entries and inherited members are
    truthy. *)
Definition lookup_or {A : Type} (table : list (string * A)) (key fallback : string)
  : looked_up A :=
  match lookup table key with
  | Undefined => lookup table fallback
  | found => found
  end.

(** The first three lines of [createActivityHTML], on the strings the
    record holds. *)
Definition agent_of_activity (agent : string) : looked_up agent_style :=
  lookup_or agentConfig agent "Claude".

Definition status_of_activity (status : string) : looked_up status_style :=
  lookup_or statusConfig status "info".

Definition type_of_activity (type : string) : looked_up type_style :=
  lookup_or typeConfig type "info".

End Dashboard.

(** ** Spec-side notions for the further properties *)

(** The effects of a failed read: console errors of [getActivities]. *)
Definition read_errors (effects : list effect) : Prop :=
  forall x, In x effects -> exists e, x = Console (FailedToRetrieve e).

(** [a.k === v] on a record that holds a string under [k]. *)
Definition matches (k : string) (v : option json) (r : json) : bool :=
  strict_equal (Some (JStr (field_string k r))) v.

Definition lower_hex (c : ascii) : bool :=
  existsb (in_range c) [("a", "f"); ("0", "9")]%char.

(** The keys the two object schemas name. *)
Definition top_level_keys : list string := map fst (s_properties activity_schema).

Definition metadata_keys : list string := map fst (s_properties metadata_schema).

(** The number of records [getActivitiesByType(t)] returns. *)
Definition count_by_type (t : string) (w : World) : nat :=
  match fst (getActivitiesByType (Some (JStr t)) None w) with
  | Ok (JArr items) => List.length items
  | _ => 0
  end.

(** A select element that filters on [k], as a predicate on records. *)
Definition passes (k : string) (element : option string) (r : json) : bool :=
  match Dashboard.filter_value element with
  | Some v => matches k (Some (JStr v)) r
  | None => true
  end.

(** What [byAgent] holds for a key that was counted [n] times: nothing
    under [__proto__], glued text under the other names that
    [Object.prototype] defines, the count otherwise. *)
Definition tally_for (k : string) (n : nat) : option tally :=
  if Nat.eqb n 0 then None
  else if String.eqb k "__proto__" then None
  else if mem_string k Object_prototype_names then Some (Glued k n)
  else Some (Count n).

Section RecordShape.

Variable format_ok : string -> string -> bool.

(** What [validate] demands of a value, read off the compiled schema. *)
Definition record_shape (props : list (string * json)) : Prop :=
  (forall k, has_prop k props = true -> In k top_level_keys) /\
  (exists v, get_prop "id" props = Some v /\
             ((exists q, v = JNum q) \/ (exists s, v = JStr s))) /\
  (exists s, get_prop "timestamp" props = Some (JStr s) /\
             format_ok "date-time" s = true) /\
  (exists s, get_prop "agent" props = Some (JStr s) /\ s <> "") /\
  (exists s, get_prop "action" props = Some (JStr s) /\ s <> "") /\
  (exists s, get_prop "type" props = Some (JStr s) /\ In s type_enum) /\
  (exists s, get_prop "status" props = Some (JStr s) /\ In s status_enum) /\
  (forall v, get_prop "metadata" props = Some v ->
             conforms format_ok metadata_schema v = true).

End RecordShape.

(** The store after [log('7', ...)] and [log('Claude', ...)], and the two
    records it holds, latest first. *)
Definition two_logged : World :=
  perform_all iso_formats [sample_call 1 "7"; sample_call 2 "Claude"] fresh_world.

Definition two_records : list json := [sample 2 "Claude"; sample 1 "7"].

(** ** The store when a number need not be finite

    A JavaScript number is a double: besides the finite numbers there are
    [Infinity], [-Infinity] and [NaN].  [JSON.parse] reads a numeral that
    is too large for a double (1e400) as an infinity, and a caller of [log]
    can put any of the three into [metadata].  Ajv 6, the version whose
    defaults know the formats [date-time] and [uri] that the schema names,
    takes all three for numbers; [JSON.stringify] writes each of them as
    [null].  The definitions above are the program on the values whose
    numbers are finite, where the text that [JSON.stringify] writes reads
    back as the value itself.  This module embeds the validator and the
    methods that read and write the store once more, over all values.  A
    value is plain data: [null], a boolean, a number, a string, an array
    or an object of such values.  What [JSON.stringify] leaves out or
    throws on ([undefined] or a function inside an object, a BigInt, an
    object that contains itself) is not a value of the model. *)

Module Wide.

Inductive number := Finite (q : Q) | Infinite (negative : bool) | NaN.

Inductive value : Type :=
| VNull
| VBool (b : bool)
| VNum (n : number)
| VStr (s : string)
| VArr (items : list value)
| VObj (props : list (string * value)).

(** A JSON value of the definitions above, as a value. *)
Fixpoint of_json (j : json) : value :=
  match j with
  | JNull => VNull
  | JBool b => VBool b
  | JNum q => VNum (Finite q)
  | JStr s => VStr s
  | JArr l => VArr (map of_json l)
  | JObj props => VObj (map (fun kv => (fst kv, of_json (snd kv))) props)
  end.

Definition finite_number (n : number) : bool :=
  match n with Finite _ => true | _ => false end.

(** No number anywhere in the value is an infinity or [NaN]. *)
Fixpoint finite (v : value) : bool :=
  match v with
  | VNum n => finite_number n
  | VArr l => forallb finite l
  | VObj props => forallb (fun kv => finite (snd kv)) props
  | _ => true
  end.

(** What [JSON.parse] reads from the text that [JSON.stringify] writes for
    [v]: a number that is not finite is written as [null], as an element of
    an array and as the value of a property alike. *)
Fixpoint written (v : value) : value :=
  match v with
  | VNum (Finite q) => VNum (Finite q)
  | VNum _ => VNull
  | VArr l => VArr (map written l)
  | VObj props => VObj (map (fun kv => (fst kv, written (snd kv))) props)
  | _ => v
  end.

(** *** Validation

    The checks Ajv 6 compiles for the keywords of the schema.  [type:
    number] is [typeof data === "number"]; [type: integer] adds
    [!(data % 1) && data === data], which an infinity passes ([Infinity % 1]
    is [NaN], which is falsy); [minimum: m] fails when
    [data < m || data !== data], [maximum: m] when
    [data > m || data !== data]. *)

Definition has_type (d : value) (t : jtype) : bool :=
  match t, d with
  | TNull, VNull => true
  | TBoolean, VBool _ => true
  | TObject, VObj _ => true
  | TArray, VArr _ => true
  | TNumber, VNum _ => true
  | TInteger, VNum (Finite q) => is_integer q
  | TInteger, VNum (Infinite _) => true
  | TString, VStr _ => true
  | _, _ => false
  end.

Definition check_type (ts : list jtype) (d : value) : bool :=
  match ts with
  | [] => true
  | _ => existsb (has_type d) ts
  end.

Definition check_enum (e : option (list string)) (d : value) : bool :=
  match e with
  | None => true
  | Some vs => match d with VStr s => mem_string s vs | _ => false end
  end.

Definition at_least (m : Q) (n : number) : bool :=
  match n with
  | Finite q => Qle_bool m q
  | Infinite negative => negb negative
  | NaN => false
  end.

Definition at_most (m : Q) (n : number) : bool :=
  match n with
  | Finite q => Qle_bool q m
  | Infinite negative => negative
  | NaN => false
  end.

Section Validator.

Variable format_ok : string -> string -> bool.

Fixpoint conforms (s : schema) (d : value) {struct s} : bool :=
  match s with
  | Schema ty req props additional items enum minLen pat fmt lo hi =>
      check_type ty d && check_enum enum d &&
      match d with
      | VStr x =>
          opt_check minLen (fun n => Nat.leb n (String.length x)) &&
          opt_check pat (fun r => regex_test r x) &&
          opt_check fmt (fun f => format_ok f x)
      | VNum n =>
          opt_check lo (fun m => at_least m n) &&
          opt_check hi (fun m => at_most m n)
      | VArr l =>
          match items with
          | None => true
          | Some si => forallb (conforms si) l
          end
      | VObj fields =>
          forallb (fun k => has_prop k fields) req &&
          forallb (fun p => match get_prop (fst p) fields with
                            | Some v => conforms (snd p) v
                            | None => true
                            end) props &&
          (additional ||
           forallb (fun kv => mem_string (fst kv) (map fst props)) fields)
      | _ => true
      end
  end.

(** [AgentLogger.validate]. *)
Definition validate (d : value) : bool := conforms activity_schema d.

End Validator.

(** *** The host *)

(** [Doc v] is a text that [JSON.parse] reads as [v] (never a value that
    holds [NaN], which no text denotes); [Raw s] is the string [s], which
    [JSON.parse] rejects. *)
Inductive text := Doc (v : value) | Raw (s : string).

Inductive event := Activity (detail : value) | Cleared | Imported.

Inductive effect :=
| SetItem (t : text)
| RemoveItem
| Dispatch (e : event) (seen : option text)
| Console (d : diagnostic).

Record World := mkWorld {
  storage : option text;
  trace : list effect
}.

Definition fresh_world : World := mkWorld None [].

Definition M (A : Type) : Type := World -> result A * World.

Definition ret {A : Type} (a : A) : M A := fun w => (Ok a, w).

Definition throw {A : Type} (e : exn) : M A := fun w => (Throw e, w).

Definition bind {A B : Type} (c : M A) (k : A -> M B) : M B :=
  fun w => match c w with
           | (Ok a, w') => k a w'
           | (Throw e, w') => (Throw e, w')
           end.

Definition try_catch {A : Type} (c : M A) (handler : exn -> M A) : M A :=
  fun w => match c w with
           | (Ok a, w') => (Ok a, w')
           | (Throw e, w') => handler e w'
           end.

Declare Scope wide_scope.
Notation "x <- c ;; k" := (bind c (fun x => k))
  (at level 61, c at next level, right associativity) : wide_scope.
Notation "c ;; k" := (bind c (fun _ => k))
  (at level 61, right associativity) : wide_scope.
Local Open Scope wide_scope.

Definition localStorage_getItem : M (option text) :=
  fun w => (Ok (storage w), w).

Definition localStorage_setItem (t : text) : M unit :=
  fun w => (Ok tt, mkWorld (Some t) (trace w ++ [SetItem t])).

Definition localStorage_removeItem : M unit :=
  fun w => (Ok tt, mkWorld None (trace w ++ [RemoveItem])).

Definition dispatchEvent (e : event) : M unit :=
  fun w => (Ok tt, mkWorld (storage w) (trace w ++ [Dispatch e (storage w)])).

Definition console (d : diagnostic) : M unit :=
  fun w => (Ok tt, mkWorld (storage w) (trace w ++ [Console d])).

Definition JSON_parse (t : text) : M value :=
  match t with
  | Doc v => ret v
  | Raw _ => throw SyntaxError
  end.

Definition JSON_stringify (v : value) : text := Doc (written v).

Definition truthy_item (stored : option text) : option text :=
  match stored with
  | None => None
  | Some (Raw "") => None
  | Some t => Some t
  end.

Definition slice (x : value) (n : Z) : M value :=
  match x with
  | VArr l => ret (VArr (firstn (slice_end (List.length l) n) l))
  | VStr s => ret (VStr (String.substring 0 (slice_end (String.length s) n) s))
  | _ => throw TypeError
  end.

Definition unshift (x : value) (a : value) : M (list value) :=
  match x with
  | VArr l => ret (a :: l)
  | _ => throw TypeError
  end.

Definition field (k : string) (v : option value) : list (string * value) :=
  match v with Some j => [(k, j)] | None => [] end.

(** *** AgentLogger *)

Section Logger.

Variable format_ok : string -> string -> bool.

(** The object literal of [log]; [Date.now() + Math.random()] is finite. *)
Definition activity_of (id : Q) (timestamp : string)
           (agent action : option value) (type status metadata : value) : value :=
  VObj ([("id", VNum (Finite id)); ("timestamp", VStr timestamp)]
          ++ field "agent" agent ++ field "action" action
          ++ [("type", type); ("status", status); ("metadata", metadata)]).

(** [getActivities(limit = null)] *)
Definition getActivities (limit : option Z) : M value :=
  try_catch
    (stored <- localStorage_getItem ;;
     activities <- match truthy_item stored with
                   | Some t => JSON_parse t
                   | None => ret (VArr [])
                   end ;;
     match truthy_limit limit with
     | Some n => slice activities n
     | None => ret activities
     end)
    (fun error => console (FailedToRetrieve error) ;; ret (VArr [])).

(** [log(agent, action, type = 'info', status = 'success', metadata = {})] *)
Definition log (id : Q) (timestamp : string)
           (agent action type status metadata : option value) : M bool :=
  let type := default (VStr "info") type in
  let status := default (VStr "success") status in
  let metadata := default (VObj []) metadata in
  let activity := activity_of id timestamp agent action type status metadata in
  if negb (validate format_ok activity) then
    console InvalidActivityFormat ;; ret false
  else
    try_catch
      (activities <- getActivities None ;;
       activities <- unshift activities activity ;;
       let activities :=
         if Nat.ltb MAX_ACTIVITIES (List.length activities)
         then firstn MAX_ACTIVITIES activities      (* splice(MAX_ACTIVITIES) *)
         else activities in
       localStorage_setItem (JSON_stringify (VArr activities)) ;;
       dispatchEvent (Activity activity) ;;
       ret true)
      (fun error => console (FailedToLog error) ;; ret false).

(** [clear()] *)
Definition clear : M bool :=
  try_catch
    (localStorage_removeItem ;;
     dispatchEvent Cleared ;;
     ret true)
    (fun error => console (FailedToClear error) ;; ret false).

(** [exportActivities()] *)
Definition exportActivities : M text :=
  activities <- getActivities None ;;
  ret (JSON_stringify activities).

(** [importActivities(jsonData)] *)
Definition importActivities (jsonData : text) : M bool :=
  try_catch
    (activities <- JSON_parse jsonData ;;
     match activities with
     | VArr activities =>
         let validActivities := filter (validate format_ok) activities in
         (if negb (Nat.eqb (List.length validActivities) (List.length activities))
          then console (InvalidSkipped (List.length activities - List.length validActivities))
          else ret tt) ;;
         localStorage_setItem (JSON_stringify (VArr validActivities)) ;;
         dispatchEvent Imported ;;
         ret true
     | _ => throw TypeError
     end)
    (fun error => console (FailedToImport error) ;; ret false).

End Logger.

(** *** Sequences of calls *)

Inductive call :=
| Log (id : Q) (timestamp : string) (agent action type status metadata : option value)
| Clear
| Import (jsonData : text).

Definition candidate id ts (agent action type status metadata : option value) : value :=
  activity_of id ts agent action (default (VStr "info") type)
              (default (VStr "success") status) (default (VObj []) metadata).

(** The values a call hands to [validate]: the record [log] assembles, the
    elements of an imported array. *)
Definition submitted (c : call) : list value :=
  match c with
  | Log id ts agent action type status metadata =>
      [candidate id ts agent action type status metadata]
  | Clear => []
  | Import (Doc (VArr batch)) => batch
  | Import _ => []
  end.

Definition holds (w : World) (l : list value) : Prop :=
  (storage w = None /\ l = []) \/ storage w = Some (Doc (VArr l)).

Definition skipped (n : nat) : list effect :=
  match n with O => [] | _ => [Console (InvalidSkipped n)] end.

Section Model.

Variable format_ok : string -> string -> bool.

Definition perform (c : call) (w : World) : World :=
  match c with
  | Log id ts agent action type status metadata =>
      snd (log format_ok id ts agent action type status metadata w)
  | Clear => snd (clear w)
  | Import jsonData => snd (importActivities format_ok jsonData w)
  end.

Definition perform_all (cs : list call) (w : World) : World :=
  fold_left (fun w c => perform c w) cs w.


(** What an unlimited query returns. *)
Definition collection (w : World) : result value := fst (getActivities None w).

(** [r] is in the store because a value that passed validation was
    submitted by one of the calls [cs] and written. *)
Definition written_by (cs : list call) (r : value) : Prop :=
  exists v, In v (flat_map submitted cs) /\ validate format_ok v = true /\ r = written v.

(** The slot is absent or holds an array of records that the calls [cs]
    wrote. *)
Definition store_ok (cs : list call) (w : World) : Prop :=
  exists l, holds w l /\ Forall (written_by cs) l.

End Model.

(** What a record holds under [metadata.k]. *)
Definition metadata_field (k : string) (r : value) : option value :=
  match r with
  | VObj props =>
      match get_prop "metadata" props with
      | Some (VObj md) => get_prop k md
      | _ => None
      end
  | _ => None
  end.

(** *** Concrete records *)

(** The record that [log('Claude', 'Ran tests', undefined, undefined,
    {duration: d})] assembles, and the call. *)
Definition timed (id : Z) (d : value) : value :=
  VObj [("id", VNum (Finite (inject_Z id))); ("timestamp", VStr sample_timestamp);
        ("agent", VStr "Claude"); ("action", VStr "Ran tests");
        ("type", VStr "info"); ("status", VStr "success");
        ("metadata", VObj [("duration", d)])].

Definition timed_call (id : Z) (d : value) : call :=
  Log (inject_Z id) sample_timestamp (Some (VStr "Claude")) (Some (VStr "Ran tests"))
      None None (Some (VObj [("duration", d)])).


End Wide.

(** ** The values with finite numbers among all values

    [Wide.of_json] carries the JSON values, texts, events and worlds of the
    first part into the second. *)

Definition of_text (t : text) : Wide.text :=
  match t with
  | Doc j => Wide.Doc (Wide.of_json j)
  | Raw s => Wide.Raw s
  end.

Definition of_event (e : event) : Wide.event :=
  match e with
  | Activity detail => Wide.Activity (Wide.of_json detail)
  | Cleared => Wide.Cleared
  | Imported => Wide.Imported
  end.

Definition of_effect (e : effect) : Wide.effect :=
  match e with
  | SetItem t => Wide.SetItem (of_text t)
  | RemoveItem => Wide.RemoveItem
  | Dispatch e seen => Wide.Dispatch (of_event e) (option_map of_text seen)
  | Console d => Wide.Console d
  end.

Definition of_world (w : World) : Wide.World :=
  Wide.mkWorld (option_map of_text (storage w)) (map of_effect (trace w)).

Definition of_call (c : call) : Wide.call :=
  match c with
  | Log id ts agent action type status metadata =>
      Wide.Log id ts (option_map Wide.of_json agent) (option_map Wide.of_json action)
               (option_map Wide.of_json type) (option_map Wide.of_json status)
               (option_map Wide.of_json metadata)
  | Clear => Wide.Clear
  | Import jsonData => Wide.Import (of_text jsonData)
  end.

Definition of_result (r : result json) : result Wide.value :=
  match r with
  | Ok j => Ok (Wide.of_json j)
  | Throw e => Throw e
  end.

(** * Properties *)

Lemma firstn_In {A : Type} (n : nat) (l : list A) (x : A) :
  In x (firstn n l) -> In x l.
Proof.
  revert l. induction n as [|n IH]; intros [|y l] H; cbn in H; try contradiction.
  destruct H as [-> | H]; [now left | right; now apply IH].
Qed.

Lemma mem_string_In k l : mem_string k l = true <-> In k l.
Proof.
  unfold mem_string. rewrite existsb_exists. split.
  - intros (x & Hx & E). apply String.eqb_eq in E. now subst.
  - intros H. exists k. split; [assumption | apply String.eqb_refl].
Qed.

Section Properties.

Variable format_ok : string -> string -> bool.

#[local] Abbreviation valid := (validate format_ok).
#[local] Abbreviation perform := (perform format_ok).
#[local] Abbreviation perform_all := (perform_all format_ok).
#[local] Abbreviation reachable := (reachable format_ok).
#[local] Abbreviation imported := (imported format_ok).
#[local] Abbreviation accepted := (accepted format_ok).
#[local] Abbreviation after_call := (after_call format_ok).
#[local] Abbreviation all_valid := (all_valid format_ok).

Lemma getActivities_holds w l :
  holds w l -> getActivities None w = (Ok (JArr l), w).
Proof.
  intros [[H ->] | H]; unfold getActivities, try_catch, bind, localStorage_getItem;
    rewrite H; reflexivity.
Qed.

Lemma truncate_firstn (l : list json) :
  (if Nat.ltb MAX_ACTIVITIES (List.length l) then firstn MAX_ACTIVITIES l else l)
  = firstn MAX_ACTIVITIES l.
Proof.
  destruct (Nat.ltb MAX_ACTIVITIES (List.length l)) eqn:E; [reflexivity|].
  apply Nat.ltb_ge in E. symmetry. now apply firstn_all2.
Qed.

Lemma log_invalid w id ts agent action type status metadata :
  valid (candidate id ts agent action type status metadata) = false ->
  log format_ok id ts agent action type status metadata w
  = (Ok false, mkWorld (storage w) (trace w ++ [Console InvalidActivityFormat])).
Proof.
  intros H. unfold log. fold (candidate id ts agent action type status metadata).
  rewrite H. reflexivity.
Qed.

Lemma log_valid w l id ts agent action type status metadata :
  holds w l ->
  valid (candidate id ts agent action type status metadata) = true ->
  log format_ok id ts agent action type status metadata w
  = (Ok true, appended (candidate id ts agent action type status metadata) l w).
Proof.
  intros Hw H. unfold log. fold (candidate id ts agent action type status metadata).
  rewrite H. cbn [negb]. unfold try_catch at 1. unfold bind at 1.
  rewrite (getActivities_holds _ _ Hw).
  unfold unshift, bind, ret. rewrite truncate_firstn.
  unfold localStorage_setItem, dispatchEvent, appended, JSON_stringify.
  cbn [storage trace]. rewrite <- app_assoc. reflexivity.
Qed.

Lemma clear_eq w :
  clear w = (Ok true, mkWorld None (trace w ++ [RemoveItem] ++ [Dispatch Cleared None])).
Proof.
  unfold clear, try_catch, bind, localStorage_removeItem, dispatchEvent, ret.
  cbn [storage trace]. rewrite <- app_assoc. reflexivity.
Qed.

Lemma filter_length_eqb {A} (p : A -> bool) (l : list A) :
  Nat.eqb (List.length (filter p l)) (List.length l) = true ->
  List.length l - List.length (filter p l) = 0.
Proof. intros H. apply Nat.eqb_eq in H. lia. Qed.

Lemma import_array w batch :
  importActivities format_ok (Doc (JArr batch)) w = (Ok true, imported batch w).
Proof.
  unfold importActivities, try_catch. unfold bind at 1. cbn [JSON_parse ret].
  unfold imported, bind, console, emit, localStorage_setItem, dispatchEvent, ret,
    JSON_stringify.
  destruct (Nat.eqb (List.length (filter valid batch)) (List.length batch)) eqn:E;
    cbn [negb storage trace].
  - rewrite (filter_length_eqb _ _ E). cbn [skipped].
    rewrite <- !app_assoc. reflexivity.
  - apply Nat.eqb_neq in E.
    pose proof (filter_length_le valid batch) as Hle.
    destruct (List.length batch - List.length (filter valid batch)) eqn:D; [lia|].
    cbn [skipped]. rewrite <- !app_assoc. reflexivity.
Qed.

Lemma import_unparseable w s :
  importActivities format_ok (Raw s) w
  = (Ok false, mkWorld (storage w) (trace w ++ [Console (FailedToImport SyntaxError)])).
Proof. reflexivity. Qed.

Lemma import_not_array w j :
  (forall l, j <> JArr l) ->
  importActivities format_ok (Doc j) w
  = (Ok false, mkWorld (storage w) (trace w ++ [Console (FailedToImport TypeError)])).
Proof.
  intros H. destruct j; try reflexivity. now destruct (H items).
Qed.

Lemma holds_same_storage w w' l :
  storage w' = storage w -> holds w l -> holds w' l.
Proof. unfold holds. intros ->. exact (fun H => H). Qed.

Lemma perform_holds c w l :
  holds w l -> holds (perform c w) (after_call c l).
Proof.
  intros Hw. destruct c as [id ts agent action type status metadata | | jsonData];
    cbn [perform after_call].
  - destruct (valid (candidate id ts agent action type status metadata)) eqn:E.
    + rewrite (log_valid _ _ _ _ _ _ _ _ _ Hw E). right. reflexivity.
    + rewrite (log_invalid _ _ _ _ _ _ _ _ E). now apply holds_same_storage with w.
  - rewrite clear_eq. left. now split.
  - destruct jsonData as [j | s].
    + destruct j; try (rewrite import_not_array by discriminate;
                       now apply holds_same_storage with w).
      rewrite import_array. right. reflexivity.
    + rewrite import_unparseable. now apply holds_same_storage with w.
Qed.

Lemma getActivities_limit_holds w l limit :
  holds w l -> getActivities limit w = (Ok (JArr (limited limit l)), w).
Proof.
  intros [[H ->] | H]; unfold getActivities, try_catch, bind, localStorage_getItem, limited;
    rewrite H; cbn [truthy_item JSON_parse ret];
    destruct (truthy_limit limit); reflexivity.
Qed.

Lemma limited_incl limit l x : In x (limited limit l) -> In x l.
Proof.
  unfold limited. destruct (truthy_limit limit); [apply firstn_In | exact (fun H => H)].
Qed.

(** *** Runs of appends *)

Lemma firstn_app_firstn {A} n (x l : list A) :
  firstn n (x ++ firstn n l) = firstn n (x ++ l).
Proof.
  rewrite !firstn_app, firstn_firstn. f_equal. f_equal. lia.
Qed.

Lemma firstn_cons_firstn {A} n (a : A) l :
  firstn n (a :: firstn n l) = firstn n (a :: l).
Proof. exact (firstn_app_firstn n [a] l). Qed.

Lemma accepted_app cs1 cs2 : accepted (cs1 ++ cs2) = accepted cs1 ++ accepted cs2.
Proof. apply flat_map_app. Qed.

Lemma perform_all_app cs1 cs2 w :
  perform_all (cs1 ++ cs2) w = perform_all cs2 (perform_all cs1 w).
Proof. apply fold_left_app. Qed.

Lemma perform_all_keeps cs : forall w l,
  forallb (fun c => negb (destroys c)) cs = true ->
  holds w l -> List.length l <= MAX_ACTIVITIES ->
  holds (perform_all cs w) (firstn MAX_ACTIVITIES (rev (accepted cs) ++ l)).
Proof.
  induction cs as [|c cs IH] using rev_ind; intros w l Hn Hw Hl.
  - cbn [perform_all fold_left accepted flat_map rev app]. now rewrite firstn_all2.
  - rewrite forallb_app in Hn. apply andb_true_iff in Hn. destruct Hn as [Hn Hc].
    cbn [forallb] in Hc. rewrite andb_true_r in Hc.
    rewrite perform_all_app, accepted_app, rev_app_distr.
    cbn [perform_all fold_left].
    specialize (IH w l Hn Hw Hl).
    apply (perform_holds c) in IH.
    destruct c as [id ts agent action type status metadata | | [j | s]];
      cbn [after_call accepted flat_map call_candidate] in *; try discriminate.
    + destruct (valid (candidate id ts agent action type status metadata));
        cbn [app rev] in *; [|exact IH].
      now rewrite firstn_cons_firstn in IH.
    + destruct j; try discriminate; exact IH.
    + exact IH.
Qed.

(** *** The schema on the record that [log] assembles *)

Lemma valid_activity_of id ts agent action type status metadata :
  valid (activity_of id ts agent action type status metadata) = true <->
  format_ok "date-time" ts = true /\
  (exists ag, agent = Some ag /\ conforms format_ok agent_schema ag = true) /\
  (exists ac, action = Some ac /\ conforms format_ok action_schema ac = true) /\
  conforms format_ok type_schema type = true /\
  conforms format_ok status_schema status = true /\
  conforms format_ok metadata_schema metadata = true.
Proof.
  unfold validate, activity_of.
  destruct agent as [ag|], action as [ac|]; cbn [field app].
  all: unfold activity_schema, object.
  all: cbn [conforms].
  all: cbn [check_type check_enum existsb has_type orb andb forallb has_prop get_prop
              fst snd String.eqb Ascii.eqb Bool.eqb map mem_string].
  2-4: split; [discriminate | intros (_ & (? & ? & _) & (? & ? & _) & _); discriminate].
  change (conforms format_ok id_schema (JNum id)) with true.
  change (conforms format_ok timestamp_schema (JStr ts)) with (format_ok "date-time" ts).
  cbn [andb]. rewrite !andb_true_iff.
  split.
  - intros ((H1 & H2 & H3 & H4 & H5 & H6 & _) & _). repeat split; eauto.
  - intros (H1 & (? & [= <-] & H2) & (? & [= <-] & H3) & H4 & H5 & H6). now repeat split.
Qed.

Lemma conforms_nonempty_string d :
  conforms format_ok agent_schema d = true <-> exists s, d = JStr s /\ s <> "".
Proof.
  destruct d; cbn; try (split; [discriminate | intros (? & ? & _); discriminate]).
  destruct s as [|c s]; cbn; split; try discriminate.
  - intros (? & [= <-] & H). now destruct H.
  - intros _. eexists. split; [reflexivity | discriminate].
  - reflexivity.
Qed.

Lemma conforms_enum vs d :
  conforms format_ok (with_enum vs (typed [TString])) d = true <->
  exists s, d = JStr s /\ In s vs.
Proof.
  destruct d; cbn -[mem_string];
    try (split; [discriminate | intros (? & ? & _); discriminate]).
  rewrite andb_true_r, mem_string_In. split.
  - intros H. now exists s.
  - now intros (? & [= <-] & H).
Qed.

(** The schema, spelled out on the arguments of [log]. *)
Theorem valid_candidate_iff id ts agent action type status metadata :
  valid (candidate id ts agent action type status metadata) = true <->
  format_ok "date-time" ts = true /\
  (exists s, agent = Some (JStr s) /\ s <> "") /\
  (exists s, action = Some (JStr s) /\ s <> "") /\
  (exists s, default (JStr "info") type = JStr s /\ In s type_enum) /\
  (exists s, default (JStr "success") status = JStr s /\ In s status_enum) /\
  conforms format_ok metadata_schema (default (JObj []) metadata) = true.
Proof.
  unfold candidate. rewrite valid_activity_of.
  unfold type_schema, status_schema. rewrite !conforms_enum.
  split.
  - intros (H1 & (ag & -> & H2) & (ac & -> & H3) & H4 & H5 & H6).
    apply conforms_nonempty_string in H2. apply conforms_nonempty_string in H3.
    destruct H2 as (s2 & -> & ?), H3 as (s3 & -> & ?).
    repeat split; eauto.
  - intros (H1 & (s2 & -> & ?) & (s3 & -> & ?) & H4 & H5 & H6).
    repeat split; try assumption.
    + eexists. split; [reflexivity|]. apply conforms_nonempty_string. eauto.
    + eexists. split; [reflexivity|]. apply conforms_nonempty_string. eauto.
Qed.

(** *** Reading never throws *)

Lemma getActivities_cases limit w :
  (exists j, getActivities limit w = (Ok j, w)) \/
  (exists e, getActivities limit w
             = (Ok (JArr []),
                mkWorld (storage w) (trace w ++ [Console (FailedToRetrieve e)]))).
Proof.
  unfold getActivities, try_catch, bind, localStorage_getItem.
  destruct (truthy_item (storage w)) as [[j | s] |]; cbn [JSON_parse ret throw].
  - destruct (truthy_limit limit) as [n|]; [|left; now eexists].
    destruct j; cbn [slice ret throw]; try (left; now eexists); right; now eexists.
  - right. now eexists.
  - destruct (truthy_limit limit) as [n|]; left; now eexists.
Qed.

Lemma firstn_MAX_cons (a : json) l :
  firstn MAX_ACTIVITIES (a :: l) = a :: firstn (MAX_ACTIVITIES - 1) l.
Proof. reflexivity. Qed.

(** ** The claims *)

(** C10 (import of a value that is not an array).  A text that parses to
    anything but an array is rejected: [false], the slot as it was,
    nothing written and nothing dispatched (the trace only gains the
    console error). *)
Theorem import_rejects_non_array w j :
  (forall l, j <> JArr l) ->
  exists w',
    importActivities format_ok (Doc j) w = (Ok false, w') /\
    storage w' = storage w /\
    trace w' = trace w ++ [Console (FailedToImport TypeError)].
Proof.
  intros H. eexists. split; [now apply import_not_array|]. now split.
Qed.

(** C8 (clear).  [clear] returns [true], removes the slot, and dispatches
    [codedao:cleared], an event without payload; done again on the result
    it returns [true] again and the collection is empty both times. *)
Theorem clear_idempotent w :
  let w1 := snd (clear w) in
  let w2 := snd (clear w1) in
  fst (clear w) = Ok true /\
  storage w1 = None /\ collection w1 = Ok (JArr []) /\
  trace w1 = trace w ++ [RemoveItem; Dispatch Cleared None] /\
  fst (clear w1) = Ok true /\
  storage w2 = None /\ collection w2 = Ok (JArr []) /\
  trace w2 = trace w1 ++ [RemoveItem; Dispatch Cleared None].
Proof.
  cbv zeta. rewrite !clear_eq. cbn [fst snd storage trace]. repeat split.
Qed.

(** C7 (round trip).  When the unlimited query returns schema-valid
    records only, importing what [exportActivities] produced succeeds and
    the unlimited query returns the same records in the same order. *)
Theorem import_export_roundtrip w l :
  collection w = Ok (JArr l) ->
  all_valid l ->
  exists t w1 w2,
    exportActivities w = (Ok t, w1) /\
    importActivities format_ok t w1 = (Ok true, w2) /\
    collection w2 = Ok (JArr l).
Proof.
  unfold collection. intros Hc Hv.
  destruct (getActivities None w) as [r w1] eqn:E. cbn [fst] in Hc. subst r.
  assert (Hf : filter valid l = l).
  { apply forallb_filter_id. apply forallb_forall. now apply Forall_forall. }
  exists (Doc (JArr l)), w1, (imported l w1). split; [|split].
  - unfold exportActivities, bind. now rewrite E.
  - apply import_array.
  - rewrite (getActivities_holds (imported l w1) l); [reflexivity|].
    right. unfold imported. cbn [storage]. now rewrite Hf.
Qed.

(** *** What a successful append leaves behind *)

Lemma log_true_shape w id ts agent action type status metadata w' :
  log format_ok id ts agent action type status metadata w = (Ok true, w') ->
  let a := candidate id ts agent action type status metadata in
  exists before old,
    let t := Doc (JArr (firstn MAX_ACTIVITIES (a :: old))) in
    valid a = true /\
    w' = mkWorld (Some t)
                 (trace w ++ before ++ [SetItem t; Dispatch (Activity a) (Some t)]) /\
    (forall x, In x before -> exists d, x = Console d).
Proof.
  intros H a. unfold log in H. fold (candidate id ts agent action type status metadata) in H.
  fold a in H. destruct (valid a); cbn [negb] in H; [|discriminate].
  unfold try_catch at 1 in H. unfold bind at 1 in H.
  destruct (getActivities_cases None w) as [[j E] | [e E]]; rewrite E in H.
  - destruct j; try discriminate H.
    unfold unshift, bind, ret in H. rewrite truncate_firstn in H.
    unfold localStorage_setItem, dispatchEvent, JSON_stringify in H.
    cbn [storage trace] in H. injection H as <-.
    exists [], items. cbv zeta. cbn [app]. rewrite <- app_assoc.
    repeat split. intros x [].
  - unfold unshift, bind, ret in H. rewrite truncate_firstn in H.
    unfold localStorage_setItem, dispatchEvent, JSON_stringify in H.
    cbn [storage trace] in H. injection H as <-.
    exists [Console (FailedToRetrieve e)], []. cbv zeta. rewrite <- !app_assoc.
    repeat split. intros x [<- | []]. now eexists.
Qed.

(** C9 (notification order).  When [log] returns [true], the last two
    things it did are, in this order, the write of the new array and the
    dispatch of [codedao:activity]; nothing was written or dispatched
    before them in that call; the listener is handed the slot that holds
    the new array, so a query from inside the handler returns the new
    record first; and the dispatch is part of the call, so it precedes
    the return. *)
Theorem notification_after_write w id ts agent action type status metadata w' :
  log format_ok id ts agent action type status metadata w = (Ok true, w') ->
  let a := candidate id ts agent action type status metadata in
  exists before rest,
    let t := Doc (JArr (a :: rest)) in
    trace w' = trace w ++ before ++ [SetItem t; Dispatch (Activity a) (Some t)] /\
    storage w' = Some t /\
    (forall x, In x before -> exists d, x = Console d) /\
    forall tr, getActivities None (mkWorld (Some t) tr)
               = (Ok (JArr (a :: rest)), mkWorld (Some t) tr).
Proof.
  intros H a.
  destruct (log_true_shape _ _ _ _ _ _ _ _ _ H) as (before & old & _ & -> & Hb).
  exists before, (firstn (MAX_ACTIVITIES - 1) old). cbv zeta.
  rewrite <- firstn_MAX_cons. cbn [storage trace]. repeat split; assumption.
Qed.

(** *** Positions in a prefix *)

Lemma nth_error_in_firstn {A} k (full : list A) i :
  i < List.length (firstn k full) -> nth_error (firstn k full) i = nth_error full i.
Proof.
  intros H. rewrite length_firstn in H. rewrite nth_error_firstn.
  destruct (Nat.ltb_spec i k); [reflexivity | lia].
Qed.

Lemma nth_error_middle {A} (pre : list A) x post :
  nth_error (pre ++ x :: post) (List.length pre) = Some x.
Proof. rewrite nth_error_app2, Nat.sub_diag by lia. reflexivity. Qed.

Lemma limited_firstn limit k (full : list json) :
  exists k', limited limit (firstn k full) = firstn k' full.
Proof.
  unfold limited. destruct (truthy_limit limit) as [n|].
  - rewrite firstn_firstn. now eexists.
  - now eexists.
Qed.

(** C5, amended (ordering).  Let [a] be appended, then [b], with any calls in
    between and afterwards that do not discard the collection (appends,
    accepted or refused, and refused imports).  The collection is then the
    first MAX_ACTIVITIES records of: the records accepted after [b],
    latest first, then [b], then those accepted between the two, latest
    first, then [a], then the earlier collection.  Every query result is a
    prefix of that list, so in every result that still contains the
    occurrence of [a], the occurrence of [b] lies at a strictly smaller
    position.  A call that discards the collection ([clear], the import of
    an array) leaves a slot that does not depend on what was stored
    before. *)
Theorem later_append_comes_first w l cA cB a b between after :
  holds w l ->
  call_candidate cA = Some a -> valid a = true ->
  call_candidate cB = Some b -> valid b = true ->
  forallb (fun c => negb (destroys c)) (between ++ after) = true ->
  let w' := perform_all (cA :: between ++ cB :: after) w in
  let newer := rev (accepted after) in
  let mid := rev (accepted between) in
  let full := newer ++ b :: mid ++ a :: l in
  let ib := List.length newer in
  let ia := List.length newer + S (List.length mid) in
  holds w' (firstn MAX_ACTIVITIES full) /\
  (forall limit, exists items k,
      fst (getActivities limit w') = Ok (JArr items) /\
      items = firstn k full /\
      (ib < List.length items -> nth_error items ib = Some b) /\
      (ia < List.length items ->
       nth_error items ia = Some a /\ nth_error items ib = Some b /\ ib < ia)) /\
  (forall c w1 w2, destroys c = true -> storage (perform c w1) = storage (perform c w2)).
Proof.
  intros Hw HA Ha HB Hb Hn w' newer mid full ib ia.
  assert (Hfull : holds w' (firstn MAX_ACTIVITIES full)).
  { subst w'. change (cA :: between ++ cB :: after) with ([cA] ++ between ++ cB :: after).
    rewrite perform_all_app. cbn [perform_all fold_left].
    pose proof (perform_holds cA w l Hw) as H1.
    assert (E1 : after_call cA l = firstn MAX_ACTIVITIES (a :: l)).
    { destruct cA; try discriminate. cbn [after_call call_candidate] in *.
      injection HA as HA. rewrite HA, Ha. reflexivity. }
    rewrite E1 in H1.
    assert (Hn' : forallb (fun c => negb (destroys c)) (between ++ cB :: after) = true).
    { rewrite forallb_app in *. cbn [forallb].
      apply andb_true_iff in Hn. destruct Hn as [-> ->].
      destruct cB; try discriminate. reflexivity. }
    pose proof (perform_all_keeps (between ++ cB :: after) _ _ Hn' H1
                  (firstn_le_length _ _)) as H2.
    rewrite firstn_app_firstn in H2.
    rewrite accepted_app in H2.
    change (cB :: after) with ([cB] ++ after) in H2. rewrite accepted_app in H2.
    assert (E2 : accepted [cB] = [b]).
    { unfold accepted. cbn [flat_map]. rewrite HB, Hb. reflexivity. }
    rewrite E2, !rev_app_distr in H2. cbn [rev app] in H2.
    subst full newer mid. rewrite <- !app_assoc in H2. cbn [app] in H2.
    exact H2. }
  split; [exact Hfull|]. split.
  - intros limit. rewrite (getActivities_limit_holds _ _ limit Hfull). cbn [fst].
    destruct (limited_firstn limit MAX_ACTIVITIES full) as [k Hk].
    exists (firstn k full), k. rewrite Hk. split; [reflexivity|]. split; [reflexivity|].
    assert (Eb : nth_error full ib = Some b) by apply nth_error_middle.
    assert (Ea : nth_error full ia = Some a).
    { subst full ia. replace (newer ++ b :: mid ++ a :: l)
        with ((newer ++ b :: mid) ++ a :: l) by now rewrite <- app_assoc.
      replace (List.length newer + S (List.length mid))
        with (List.length (newer ++ b :: mid))
        by (rewrite length_app; reflexivity).
      apply nth_error_middle. }
    split.
    + intros H. now rewrite nth_error_in_firstn.
    + intros H. rewrite !nth_error_in_firstn by (subst ib ia; lia).
      repeat split; try assumption. subst ib ia. lia.
  - intros c w1 w2 Hc. destruct c as [| | [[] | ]]; try discriminate; cbn [perform].
    + now rewrite !clear_eq.
    + now rewrite !import_array.
Qed.

(** *** The cap on the paths that enforce it *)

Lemma log_within_cap w id ts agent action type status metadata w' l' :
  log format_ok id ts agent action type status metadata w = (Ok true, w') ->
  collection w' = Ok (JArr l') ->
  List.length l' <= MAX_ACTIVITIES.
Proof.
  intros H Hc.
  destruct (log_true_shape _ _ _ _ _ _ _ _ _ H) as (before & old & _ & -> & _).
  unfold collection in Hc.
  rewrite (getActivities_holds _ (firstn MAX_ACTIVITIES
             (candidate id ts agent action type status metadata :: old))) in Hc
    by now right.
  cbn [fst] in Hc.
  assert (E : firstn MAX_ACTIVITIES
                (candidate id ts agent action type status metadata :: old) = l')
    by congruence.
  rewrite <- E. apply firstn_le_length.
Qed.

Lemma after_call_within_cap c l :
  (forall batch, c <> Import (Doc (JArr batch))) ->
  List.length l <= MAX_ACTIVITIES ->
  List.length (after_call c l) <= MAX_ACTIVITIES.
Proof.
  intros Hc Hl. destruct c as [id ts agent action type status metadata | | [j | s]];
    cbn [after_call]; try assumption.
  - destruct (valid _); [apply firstn_le_length | assumption].
  - cbn [List.length]. lia.
  - destruct j; try assumption. now destruct (Hc items).
Qed.

(** After [n] accepted appends the collection is the first MAX_ACTIVITIES
    of the appended records, latest first, followed by the earlier ones. *)
Lemma appends_keep_most_recent cs w l :
  forallb (fun c => negb (destroys c)) cs = true ->
  holds w l -> List.length l <= MAX_ACTIVITIES ->
  collection (perform_all cs w)
  = Ok (JArr (firstn MAX_ACTIVITIES (rev (accepted cs) ++ l))).
Proof.
  intros Hn Hw Hl. unfold collection.
  now rewrite (getActivities_holds _ _ (perform_all_keeps cs w l Hn Hw Hl)).
Qed.

(** *** Limits other than zero *)

Lemma getActivities_positive_limit w l n :
  holds w l -> (0 < n)%Z ->
  getActivities (Some n) w = (Ok (JArr (firstn (Z.to_nat n) l)), w) /\
  List.length (firstn (Z.to_nat n) l) = Nat.min (Z.to_nat n) (List.length l).
Proof.
  intros Hw Hn. rewrite (getActivities_limit_holds _ _ (Some n) Hw).
  unfold limited, truthy_limit, slice_end.
  destruct (Z.eqb_spec n 0); [lia|]. destruct (Z.ltb_spec n 0); [lia|].
  rewrite length_firstn. split; [|reflexivity].
  destruct (Z.le_ge_cases n (Z.of_nat (List.length l))).
  - now rewrite Z.min_l.
  - rewrite Z.min_r, Nat2Z.id by assumption.
    rewrite firstn_all. rewrite firstn_all2 by lia. reflexivity.
Qed.

Lemma getActivities_unreadable w s limit :
  storage w = Some (Raw s) -> s <> "" ->
  getActivities limit w
  = (Ok (JArr []), mkWorld (storage w) (trace w ++ [Console (FailedToRetrieve SyntaxError)])).
Proof.
  destruct w as [st tr]. cbn [storage trace]. intros -> Hs.
  destruct s; [now destruct Hs | reflexivity].
Qed.

End Properties.

Section CountingObjects.

Lemma get_prop_set_prop k' k v (o : jsobject) :
  get_prop k' (set_prop k v o) = if String.eqb k' k then Some v else get_prop k' o.
Proof.
  induction o as [|[k0 v0] o IH]; cbn [set_prop get_prop].
  - destruct (String.eqb k' k); reflexivity.
  - destruct (String.eqb_spec k k0) as [<- | Hk]; cbn [get_prop].
    + destruct (String.eqb k' k); reflexivity.
    + rewrite IH. destruct (String.eqb_spec k' k0) as [-> | Hk'].
      * apply not_eq_sym in Hk. apply String.eqb_neq in Hk. now rewrite Hk.
      * reflexivity.
Qed.

Lemma has_prop_mem {A} k (o : list (string * A)) :
  has_prop k o = mem_string k (map fst o).
Proof.
  unfold has_prop, mem_string. induction o as [|[k0 v0] o IH]; cbn; [reflexivity|].
  destruct (String.eqb k k0); [reflexivity | exact IH].
Qed.

Lemma keys_set_prop k v (o : jsobject) :
  map fst (set_prop k v o) = if has_prop k o then map fst o else map fst o ++ [k].
Proof.
  unfold has_prop. induction o as [|[k0 v0] o IH]; cbn [set_prop get_prop map fst app];
    [reflexivity|].
  destruct (String.eqb_spec k k0) as [<- | Hk]; cbn [map fst]; [reflexivity|].
  rewrite IH. destruct (get_prop k o); reflexivity.
Qed.

Lemma tally_sum_new k m (o : jsobject) :
  get_prop k o = None -> tally_sum (set_prop k (Count m) o) = tally_sum o + m.
Proof.
  induction o as [|[k0 v0] o IH]; cbn [set_prop get_prop tally_sum]; intros H; [lia|].
  destruct (String.eqb k k0); [discriminate|].
  cbn [tally_sum]. rewrite (IH H). destruct v0; lia.
Qed.

Lemma tally_sum_update k n m (o : jsobject) :
  get_prop k o = Some (Count n) ->
  tally_sum (set_prop k (Count m) o) + n = tally_sum o + m.
Proof.
  induction o as [|[k0 v0] o IH]; cbn [set_prop get_prop tally_sum]; intros H;
    [discriminate|].
  destruct (String.eqb k k0).
  - injection H as ->. cbn [tally_sum]. lia.
  - cbn [tally_sum]. specialize (IH H). destruct v0; lia.
Qed.

Lemma first_seen_snoc keys v :
  first_seen (keys ++ [v])
  = if mem_string v (first_seen keys) then first_seen keys else first_seen keys ++ [v].
Proof. unfold first_seen. now rewrite fold_left_app. Qed.

Lemma first_seen_In keys k : In k (first_seen keys) <-> In k keys.
Proof.
  induction keys as [|v keys IH] using rev_ind; [reflexivity|].
  rewrite first_seen_snoc, in_app_iff.
  destruct (mem_string v (first_seen keys)) eqn:E.
  - apply mem_string_In in E. rewrite IH. cbn. split; [tauto|].
    intros [H | [<- | []]]; [assumption | now rewrite <- IH].
  - rewrite in_app_iff, IH. reflexivity.
Qed.

Lemma count_occ_snoc keys v k :
  count_occ string_dec (keys ++ [v]) k
  = count_occ string_dec keys k + (if String.eqb k v then 1 else 0).
Proof.
  rewrite count_occ_app. cbn [count_occ].
  destruct (string_dec v k) as [-> | H].
  - now rewrite String.eqb_refl.
  - apply not_eq_sym in H. apply String.eqb_neq in H. now rewrite H.
Qed.

Lemma tallied_nil : tallied [] [].
Proof. repeat split. Qed.

(** One increment, for a key that [Object.prototype] does not define. *)
Lemma tallied_step keys o v :
  tallied keys o ->
  mem_string v Object_prototype_names = false ->
  tallied (keys ++ [v]) (count_key o v).
Proof.
  intros (Hk & Hc & Hs) Hv.
  assert (Hp : String.eqb v "__proto__" = false).
  { destruct (String.eqb_spec v "__proto__") as [-> |]; [discriminate Hv | reflexivity]. }
  assert (Hmem : mem_string v (first_seen keys)
                 = negb (Nat.eqb (count_occ string_dec keys v) 0)).
  { destruct (Nat.eqb_spec (count_occ string_dec keys v) 0) as [E | E]; cbn [negb].
    - apply count_occ_not_In in E.
      destruct (mem_string v (first_seen keys)) eqn:M; [|reflexivity].
      apply mem_string_In in M. rewrite first_seen_In in M. now apply E in M.
    - apply mem_string_In. rewrite first_seen_In.
      apply (count_occ_In string_dec). lia. }
  unfold count_key. rewrite (Hc v), Hp, Hv.
  destruct (Nat.eqb_spec (count_occ string_dec keys v) 0) as [E | E]; cbn [negb] in Hmem.
  - repeat split.
    + rewrite keys_set_prop, has_prop_mem, Hk, first_seen_snoc, Hmem. reflexivity.
    + intros k. rewrite get_prop_set_prop, count_occ_snoc, (Hc k).
      destruct (String.eqb_spec k v) as [-> | Hkv].
      * rewrite E. reflexivity.
      * now rewrite Nat.add_0_r.
    + rewrite tally_sum_new, Hs, length_app; [reflexivity|].
      rewrite (Hc v), E. reflexivity.
  - repeat split.
    + rewrite keys_set_prop, has_prop_mem, Hk, first_seen_snoc, Hmem. reflexivity.
    + intros k. rewrite get_prop_set_prop, count_occ_snoc, (Hc k).
      destruct (String.eqb_spec k v) as [-> | Hkv].
      * destruct (Nat.eqb_spec (count_occ string_dec keys v + 1) 0); [lia | reflexivity].
      * now rewrite Nat.add_0_r.
    + assert (G : get_prop v o = Some (Count (count_occ string_dec keys v))).
      { rewrite (Hc v). destruct (Nat.eqb_spec (count_occ string_dec keys v) 0);
          [contradiction | reflexivity]. }
      pose proof (tally_sum_update v _ (count_occ string_dec keys v + 1) o G).
      rewrite length_app. cbn [List.length]. lia.
Qed.

Lemma tallied_fold keys :
  (forall k, In k keys -> mem_string k Object_prototype_names = false) ->
  tallied keys (fold_left count_key keys []).
Proof.
  induction keys as [|v keys IH] using rev_ind; intros H; [exact tallied_nil|].
  rewrite fold_left_app. cbn [fold_left]. apply tallied_step.
  - apply IH. intros k Hk. apply H, in_or_app. now left.
  - apply H, in_or_app. right. now left.
Qed.

End CountingObjects.

Section KeyOrder.

Lemma index_keys_none keys :
  (forall k, In k keys -> is_index k = false) -> index_keys keys = [].
Proof.
  induction keys as [|k keys IH]; intros H; [reflexivity|]. cbn [index_keys].
  pose proof (H k (or_introl eq_refl)) as Hk. unfold is_index in Hk.
  destruct (array_index k); [discriminate|].
  apply IH. intros k' Hk'. apply H. now right.
Qed.

(** Without array indices among the keys, [Object.keys] lists them in
    order of creation. *)
Lemma Object_keys_creation_order {A} (o : list (string * A)) :
  (forall k, In k (map fst o) -> is_index k = false) ->
  Object_keys o = map fst o.
Proof.
  intros H. unfold Object_keys. rewrite (index_keys_none _ H). cbn [map app].
  apply forallb_filter_id. apply forallb_forall. intros k Hk. now rewrite (H k Hk).
Qed.

Lemma insert_index_perm p l : Permutation (insert_index p l) (p :: l).
Proof.
  induction l as [|q l IH]; cbn [insert_index]; [reflexivity|].
  destruct (fst p <=? fst q)%N; [reflexivity|].
  rewrite IH. apply perm_swap.
Qed.

Lemma insert_index_sorted p l : Sorted by_index l -> Sorted by_index (insert_index p l).
Proof.
  induction l as [|q l IH]; cbn [insert_index]; intros H.
  - repeat constructor.
  - destruct (N.leb_spec (fst p) (fst q)) as [Hle | Hlt].
    + constructor; [assumption | now constructor].
    + inversion H as [|? ? Hs Hh]; subst. constructor; [now apply IH|].
      destruct l as [|r l]; cbn [insert_index].
      * constructor. unfold by_index. lia.
      * destruct (fst p <=? fst r)%N; constructor.
        -- unfold by_index. lia.
        -- now inversion Hh.
Qed.

Lemma index_keys_sorted keys : Sorted by_index (index_keys keys).
Proof.
  induction keys as [|k keys IH]; cbn [index_keys]; [constructor|].
  destruct (array_index k); [now apply insert_index_sorted | assumption].
Qed.

Lemma index_keys_values keys :
  Forall (fun p => array_index (snd p) = Some (fst p)) (index_keys keys).
Proof.
  induction keys as [|k keys IH]; cbn [index_keys]; [constructor|].
  destruct (array_index k) as [n|] eqn:E; [|assumption].
  apply (Permutation_Forall (x := (n, k) :: index_keys keys)).
  - symmetry. apply insert_index_perm.
  - now constructor.
Qed.

Lemma index_keys_perm keys :
  Permutation (map snd (index_keys keys)) (filter is_index keys).
Proof.
  induction keys as [|k keys IH]; cbn [index_keys filter]; [reflexivity|].
  unfold is_index at 1. destruct (array_index k) as [n|]; [|assumption].
  rewrite (Permutation_map snd (insert_index_perm (n, k) (index_keys keys))).
  cbn [map snd]. now constructor.
Qed.

Lemma Sorted_map_snd l :
  Forall (fun p => array_index (snd p) = Some (fst p)) l ->
  Sorted by_index l -> ascending (map snd l).
Proof.
  unfold ascending. induction l as [|p l IH]; intros Hv Hs; cbn [map]; [constructor|].
  inversion Hv as [|? ? Hp Hv']; subst. inversion Hs as [|? ? Hs' Hh]; subst.
  constructor; [now apply IH|].
  destruct l as [|q l]; cbn [map]; constructor.
  inversion Hh as [|? ? Hpq]; subst. inversion Hv' as [|? ? Hq ?]; subst.
  unfold index_value. rewrite Hp, Hq. exact Hpq.
Qed.

(** [Object.keys]: the array indices among the own keys, ascending, then
    the other keys in order of creation. *)
Lemma Object_keys_order {A} (o : list (string * A)) :
  exists indices,
    Object_keys o = indices ++ filter (fun k => negb (is_index k)) (map fst o) /\
    Permutation indices (filter is_index (map fst o)) /\
    ascending indices.
Proof.
  exists (map snd (index_keys (map fst o))). split; [reflexivity|]. split.
  - apply index_keys_perm.
  - apply Sorted_map_snd; [apply index_keys_values | apply index_keys_sorted].
Qed.

End KeyOrder.

Section StatisticsProperties.

Variable format_ok : string -> string -> bool.
Variable Number_toString : Q -> string.

#[local] Abbreviation valid := (validate format_ok).

Lemma valid_record r :
  valid r = true ->
  exists props a t s,
    r = JObj props /\
    get_prop "agent" props = Some (JStr a) /\ a <> "" /\
    get_prop "type" props = Some (JStr t) /\ In t type_enum /\
    get_prop "status" props = Some (JStr s) /\ In s status_enum.
Proof.
  unfold validate, activity_schema, object.
  destruct r; cbn [conforms check_type check_enum existsb has_type orb andb];
    try discriminate.
  cbn [forallb fst snd]. unfold has_prop. rewrite !andb_true_iff.
  intros [[(_ & _ & Ha & _ & Ht & Hs & _) (_ & _ & Ca & _ & Ct & Cs & _)] _].
  destruct (get_prop "agent" props) as [va|] eqn:Ea; [|discriminate].
  destruct (get_prop "type" props) as [vt|] eqn:Et; [|discriminate].
  destruct (get_prop "status" props) as [vs|] eqn:Es; [|discriminate].
  apply conforms_nonempty_string in Ca. destruct Ca as (a & -> & Hne).
  unfold type_schema in Ct. apply conforms_enum in Ct. destruct Ct as (t & -> & Hin).
  unfold status_schema in Cs. apply conforms_enum in Cs. destruct Cs as (st & -> & Hst).
  exists props, a, t, st. repeat split; assumption.
Qed.

Lemma count_activity_valid stats r w :
  valid r = true ->
  count_activity Number_toString stats r w = (Ok (counted stats r), w).
Proof.
  intros H. destruct (valid_record r H) as (props & a & t & s & -> & Ea & _ & Et & _ & Es & _).
  unfold count_activity, counted, field_string, bind, read_prop, ret, property_key.
  rewrite Ea, Et, Es. reflexivity.
Qed.

Lemma forEach_valid l : forall stats w,
  all_valid format_ok l ->
  forEach l (count_activity Number_toString) stats w = (Ok (fold_left counted l stats), w).
Proof.
  induction l as [|r l IH]; intros stats w H; [reflexivity|].
  inversion H as [|? ? Hr Hl]; subst. cbn [forEach fold_left]. unfold bind.
  rewrite (count_activity_valid _ _ _ Hr). now apply IH.
Qed.

Lemma fold_counted l : forall stats,
  fold_left counted l stats
  = mkStatistics (total stats)
      (fold_left count_key (map (field_string "agent") l) (byAgent stats))
      (fold_left count_key (map (field_string "type") l) (byType stats))
      (fold_left count_key (map (field_string "status") l) (byStatus stats))
      (recentActivity stats).
Proof.
  induction l as [|r l IH]; intros stats; [now destruct stats|].
  cbn [fold_left map]. rewrite IH. reflexivity.
Qed.

Lemma slice_ten {A} (l : list A) : firstn (slice_end (List.length l) 10) l = firstn 10 l.
Proof.
  unfold slice_end. cbn [Z.ltb Z.compare].
  destruct (Z.le_ge_cases 10 (Z.of_nat (List.length l))).
  - now rewrite Z.min_l.
  - rewrite Z.min_r, Nat2Z.id, firstn_all by lia. symmetry. apply firstn_all2. lia.
Qed.

Lemma enum_keys_plain :
  forallb (fun k => negb (is_index k) && negb (mem_string k Object_prototype_names))
          (type_enum ++ status_enum) = true.
Proof. reflexivity. Qed.

Lemma enum_key_plain k :
  In k type_enum \/ In k status_enum ->
  is_index k = false /\ mem_string k Object_prototype_names = false.
Proof.
  intros H. pose proof enum_keys_plain as E. rewrite forallb_forall in E.
  specialize (E k (proj2 (in_app_iff _ _ _) H)).
  apply andb_true_iff in E. destruct E as [E1 E2].
  split; now apply negb_true_iff.
Qed.

Lemma valid_type_key r :
  valid r = true -> In (field_string "type" r) type_enum.
Proof.
  intros H. destruct (valid_record r H) as (props & a & t & s & -> & _ & _ & Et & Ht & _).
  unfold field_string. now rewrite Et.
Qed.

Lemma valid_status_key r :
  valid r = true -> In (field_string "status" r) status_enum.
Proof.
  intros H. destruct (valid_record r H) as (props & a & t & s & -> & _ & _ & _ & _ & Es & Hs).
  unfold field_string. now rewrite Es.
Qed.

(** C6, amended (statistics).  For a collection of schema-valid records
    in which no agent is named like a member of [Object.prototype],
    [getStatistics] has no effect beyond that of the query it makes, and
    its result is a function of the collection: [total] is the number of
    records, [recentActivity] the first ten (all when fewer), and each of
    [byAgent], [byType], [byStatus] holds, for exactly the values that
    occur, their numbers of occurrences, one per record, the keys created
    in order of first encounter from the newest record on.  [Object.keys]
    lists type and status keys in that order; of the agent keys it lists
    first those that are array indices, ascending, then the others in
    order of first encounter. *)
Theorem statistics_of_valid_collection w l :
  collection w = Ok (JArr l) ->
  all_valid format_ok l ->
  (forall r, In r l ->
             mem_string (field_string "agent" r) Object_prototype_names = false) ->
  let agents := map (field_string "agent") l in
  let types := map (field_string "type") l in
  let statuses := map (field_string "status") l in
  exists stats,
    getStatistics Number_toString w = (Ok stats, snd (getActivities None w)) /\
    total stats = List.length l /\
    recentActivity stats = firstn 10 l /\
    tallied agents (byAgent stats) /\
    tallied types (byType stats) /\
    tallied statuses (byStatus stats) /\
    Object_keys (byType stats) = first_seen types /\
    Object_keys (byStatus stats) = first_seen statuses /\
    exists indices,
      Object_keys (byAgent stats)
      = indices ++ filter (fun k => negb (is_index k)) (first_seen agents) /\
      Permutation indices (filter is_index (first_seen agents)) /\
      ascending indices.
Proof.
  intros Hc Hv Hp agents types statuses. unfold collection in Hc.
  destruct (getActivities None w) as [r w1] eqn:E. cbn [fst snd] in *. subst r.
  assert (Ht : forall k, In k types ->
            is_index k = false /\ mem_string k Object_prototype_names = false).
  { intros k Hk. apply in_map_iff in Hk. destruct Hk as (r & <- & Hr).
    apply enum_key_plain. left. apply valid_type_key.
    unfold all_valid in Hv. rewrite Forall_forall in Hv. now apply Hv. }
  assert (Hs : forall k, In k statuses ->
            is_index k = false /\ mem_string k Object_prototype_names = false).
  { intros k Hk. apply in_map_iff in Hk. destruct Hk as (r & <- & Hr).
    apply enum_key_plain. right. apply valid_status_key.
    unfold all_valid in Hv. rewrite Forall_forall in Hv. now apply Hv. }
  assert (Ha : forall k, In k agents -> mem_string k Object_prototype_names = false).
  { intros k Hk. apply in_map_iff in Hk. destruct Hk as (r & <- & Hr). now apply Hp. }
  pose proof (tallied_fold agents Ha) as Ta.
  pose proof (tallied_fold types (fun k Hk => proj2 (Ht k Hk))) as Tt.
  pose proof (tallied_fold statuses (fun k Hk => proj2 (Hs k Hk))) as Ts.
  eexists. split.
  { unfold getStatistics, bind. rewrite E. rewrite (forEach_valid _ _ _ Hv).
    rewrite fold_counted. cbn [total byAgent byType byStatus recentActivity].
    rewrite slice_ten. reflexivity. }
  cbn [total byAgent byType byStatus recentActivity].
  fold agents types statuses.
  split; [reflexivity|]. split; [reflexivity|].
  split; [exact Ta|]. split; [exact Tt|]. split; [exact Ts|].
  split; [|split].
  - rewrite Object_keys_creation_order; [apply Tt|].
    intros k Hk. rewrite (proj1 Tt), first_seen_In in Hk. exact (proj1 (Ht k Hk)).
  - rewrite Object_keys_creation_order; [apply Ts|].
    intros k Hk. rewrite (proj1 Ts), first_seen_In in Hk. exact (proj1 (Hs k Hk)).
  - destruct (Object_keys_order (fold_left count_key agents [])) as (ix & H1 & H2 & H3).
    exists ix. rewrite (proj1 Ta) in H1, H2. now repeat split.
Qed.

End StatisticsProperties.

(** * The claims on concrete runs *)

Lemma sample_valid id agent :
  agent <> "" -> validate iso_formats (sample id agent) = true.
Proof.
  intros H. destruct agent as [|c agent]; [now destruct H | reflexivity].
Qed.

Lemma fresh_world_reachable : reachable iso_formats fresh_world.
Proof. exists []. reflexivity. Qed.

Lemma two_appends_hold :
  holds (perform_all iso_formats [sample_call 1 "7"; sample_call 2 "Claude"] fresh_world)
        [sample 2 "Claude"; sample 1 "7"].
Proof. right. reflexivity. Qed.

Lemma two_samples_valid : all_valid iso_formats [sample 2 "Claude"; sample 1 "7"].
Proof. repeat constructor. Qed.

(** C1 (capacity), on the import path.  From the empty store, the import of
    1001 valid records succeeds and the stored collection is the whole
    batch: 1001 records, one more than MAX_ACTIVITIES. *)
Theorem import_exceeds_MAX_ACTIVITIES :
  let batch := repeat (sample 1 "Claude") 1001 in
  let w := perform_all iso_formats [Import (Doc (JArr batch))] fresh_world in
  reachable iso_formats w /\
  fst (importActivities iso_formats (Doc (JArr batch)) fresh_world) = Ok true /\
  collection w = Ok (JArr batch) /\
  List.length batch = 1001 /\
  MAX_ACTIVITIES < List.length batch.
Proof.
  intros batch w.
  assert (Hf : filter (validate iso_formats) batch = batch).
  { apply forallb_filter_id. apply forallb_forall. intros r Hr.
    apply repeat_spec in Hr. subst r. reflexivity. }
  split; [exists [Import (Doc (JArr batch))]; exact eq_refl|].
  split; [rewrite import_array; exact eq_refl|].
  split.
  - unfold collection. subst w. unfold perform_all. cbn [fold_left perform].
    rewrite import_array.
    rewrite (getActivities_holds _ batch); [reflexivity|].
    right. unfold imported. cbn [snd storage]. rewrite Hf. reflexivity.
  - subst batch. rewrite repeat_length. unfold MAX_ACTIVITIES. split; [reflexivity | lia].
Qed.

(** C4 (query limit), at limit 0.  With two records stored,
    [getActivities(0)] returns both, as the call without a limit does;
    [getActivities(1)] returns the latest one only. *)
Theorem getActivities_zero_returns_all :
  let w := perform_all iso_formats [sample_call 1 "7"; sample_call 2 "Claude"] fresh_world in
  reachable iso_formats w /\
  fst (getActivities (Some 0%Z) w) = Ok (JArr [sample 2 "Claude"; sample 1 "7"]) /\
  fst (getActivities None w) = Ok (JArr [sample 2 "Claude"; sample 1 "7"]) /\
  fst (getActivities (Some 1%Z) w) = Ok (JArr [sample 2 "Claude"]).
Proof.
  intros w. split; [exists [sample_call 1 "7"; sample_call 2 "Claude"]; reflexivity|].
  subst w. repeat split; vm_compute; reflexivity.
Qed.

(** C5, as stated, fails.  Two appends succeed, of an agent named 7 and
    then of Claude, and a query lists the record of Claude first.  Then a
    text that lists the record of 7 first is imported: [importActivities]
    stores the records in the order of the text, and the query returns the
    record of 7, which was appended first, before the record of Claude. *)
Lemma import_lists_earlier_append_first :
  let first := sample_call 1 "7" in
  let second := sample_call 2 "Claude" in
  let a := sample 1 "7" in
  let b := sample 2 "Claude" in
  let w := perform_all iso_formats [first; second] fresh_world in
  accepted iso_formats [first; second] = [a; b] /\
  collection w = Ok (JArr [b; a]) /\
  collection (perform iso_formats (Import (Doc (JArr [a; b]))) w) = Ok (JArr [a; b]).
Proof. cbv zeta. repeat split; vm_compute; reflexivity. Qed.

(** C6, as stated, fails.  An agent named 7 was logged, then an agent named
    Claude: the first pass meets Claude first, and [Object.keys] lists 7
    first.  And a valid record whose agent is named constructor gets no
    count under that key. *)
Lemma statistics_keys_not_in_encounter_order :
  let w := perform_all iso_formats [sample_call 1 "7"; sample_call 2 "Claude"] fresh_world in
  let w' := perform iso_formats (sample_call 3 "constructor") fresh_world in
  (exists stats,
     getStatistics integral_Number_toString w = (Ok stats, w) /\
     first_seen (map (field_string "agent") [sample 2 "Claude"; sample 1 "7"])
     = ["Claude"; "7"] /\
     Object_keys (byAgent stats) = ["7"; "Claude"] /\
     Object_keys (byAgent stats)
     <> first_seen (map (field_string "agent") [sample 2 "Claude"; sample 1 "7"])) /\
  (exists stats,
     collection w' = Ok (JArr [sample 3 "constructor"]) /\
     getStatistics integral_Number_toString w' = (Ok stats, w') /\
     get_prop "constructor" (byAgent stats) = Some (Glued "constructor" 1) /\
     get_prop "constructor" (byAgent stats) <> Some (Count 1)).
Proof.
  split; eexists; repeat split; discriminate.
Qed.

(** *** The scenarios of the specification *)

Example append_returns_true_and_is_first :
  let w := perform iso_formats (sample_call 1 "Claude") fresh_world in
  fst (log iso_formats (inject_Z 1) sample_timestamp (Some (JStr "Claude"))
           (Some (JStr "Fixed syntax error")) (Some (JStr "commit"))
           (Some (JStr "success")) None fresh_world) = Ok true /\
  fst (getActivities (Some 1%Z) w) = Ok (JArr [sample 1 "Claude"]).
Proof. split; reflexivity. Qed.

Example append_unknown_type_refused :
  let w := perform_all iso_formats [sample_call 1 "Claude"] fresh_world in
  log iso_formats (inject_Z 2) sample_timestamp (Some (JStr "Claude"))
      (Some (JStr "x")) (Some (JStr "not-a-real-type")) None None w
  = (Ok false, mkWorld (storage w) (trace w ++ [Console InvalidActivityFormat])).
Proof. reflexivity. Qed.

Example append_without_agent_refused :
  fst (log iso_formats (inject_Z 1) sample_timestamp None (Some (JStr "x"))
           None None None fresh_world) = Ok false.
Proof. reflexivity. Qed.

Example metadata_checks :
  let md fields := JObj [("id", JNum 1); ("timestamp", JStr sample_timestamp);
                         ("agent", JStr "Claude"); ("action", JStr "x");
                         ("type", JStr "info"); ("status", JStr "success");
                         ("metadata", JObj fields)] in
  validate iso_formats (md [("commitHash", JStr "abc123")]) = true /\
  validate iso_formats (md [("commitHash", JStr "XYZ")]) = false /\
  validate iso_formats (md [("duration", JNum (-1))]) = false /\
  validate iso_formats (md [("confidence", JNum (1 # 2))]) = true /\
  validate iso_formats (md [("confidence", JNum 2)]) = false /\
  validate iso_formats (md [("lineNumbers", JArr [JNum 3; JNum (1 # 2)])]) = false /\
  validate iso_formats (md [("anythingElse", JNull)]) = true.
Proof. repeat split. Qed.

Example unknown_top_level_key_rejected :
  validate iso_formats
    (JObj [("id", JNum 1); ("timestamp", JStr sample_timestamp);
           ("agent", JStr "Claude"); ("action", JStr "x");
           ("type", JStr "info"); ("status", JStr "success");
           ("extra", JNull)]) = false.
Proof. reflexivity. Qed.

(** 1001 appends with capacity 1000: the query returns 1000 records, the
    1001st first, down to the 2nd; the first one is gone. *)
Example append_1001_keeps_latest_1000 :
  let calls := map (fun i => sample_call (Z.of_nat i) "Claude") (seq 1 1001) in
  collection (perform_all iso_formats calls fresh_world)
  = Ok (JArr (map (fun i => sample (Z.of_nat i) "Claude") (rev (seq 2 1000)))).
Proof. vm_compute. reflexivity. Qed.

(** *** The theorems at concrete inputs *)

Lemma import_rejects_non_array_witness :
  (forall l, JObj [] <> JArr l) /\
  exists w',
    importActivities iso_formats (Doc (JObj [])) fresh_world = (Ok false, w') /\
    storage w' = storage fresh_world /\
    trace w' = trace fresh_world ++ [Console (FailedToImport TypeError)].
Proof.
  split; [discriminate|].
  apply (import_rejects_non_array iso_formats fresh_world (JObj [])).
  discriminate.
Defined.

Lemma import_export_roundtrip_witness :
  let w := perform_all iso_formats [sample_call 1 "7"; sample_call 2 "Claude"] fresh_world in
  let l := [sample 2 "Claude"; sample 1 "7"] in
  collection w = Ok (JArr l) /\
  all_valid iso_formats l /\
  exists t w1 w2,
    exportActivities w = (Ok t, w1) /\
    importActivities iso_formats t w1 = (Ok true, w2) /\
    collection w2 = Ok (JArr l).
Proof.
  split; [reflexivity|]. split; [repeat constructor|].
  apply (import_export_roundtrip iso_formats); [reflexivity | repeat constructor].
Defined.

Lemma notification_after_write_witness :
  let w := fresh_world in
  let w' := perform iso_formats (sample_call 1 "Claude") fresh_world in
  let a := candidate (inject_Z 1) sample_timestamp (Some (JStr "Claude"))
                     (Some (JStr "Fixed syntax error")) (Some (JStr "commit"))
                     (Some (JStr "success")) None in
  log iso_formats (inject_Z 1) sample_timestamp (Some (JStr "Claude"))
      (Some (JStr "Fixed syntax error")) (Some (JStr "commit"))
      (Some (JStr "success")) None w = (Ok true, w') /\
  exists before rest,
    let t := Doc (JArr (a :: rest)) in
    trace w' = trace w ++ before ++ [SetItem t; Dispatch (Activity a) (Some t)] /\
    storage w' = Some t /\
    (forall x, In x before -> exists d, x = Console d) /\
    forall tr, getActivities None (mkWorld (Some t) tr)
               = (Ok (JArr (a :: rest)), mkWorld (Some t) tr).
Proof.
  split; [reflexivity|].
  apply (notification_after_write iso_formats fresh_world).
  reflexivity.
Defined.

Lemma later_append_comes_first_witness :
  let w := fresh_world in
  let l := @nil json in
  let cA := sample_call 1 "7" in
  let cB := sample_call 2 "Claude" in
  let a := sample 1 "7" in
  let b := sample 2 "Claude" in
  let between := [sample_call 5 ""; Import (Raw "not json")] in
  let after := [sample_call 3 "GPT-4"] in
  (holds w l /\
   call_candidate cA = Some a /\ validate iso_formats a = true /\
   call_candidate cB = Some b /\ validate iso_formats b = true /\
   forallb (fun c => negb (destroys c)) (between ++ after) = true) /\
  let w' := perform_all iso_formats (cA :: between ++ cB :: after) w in
  let newer := rev (accepted iso_formats after) in
  let mid := rev (accepted iso_formats between) in
  let full := newer ++ b :: mid ++ a :: l in
  let ib := List.length newer in
  let ia := List.length newer + S (List.length mid) in
  holds w' (firstn MAX_ACTIVITIES full) /\
  (forall limit, exists items k,
      fst (getActivities limit w') = Ok (JArr items) /\
      items = firstn k full /\
      (ib < List.length items -> nth_error items ib = Some b) /\
      (ia < List.length items ->
       nth_error items ia = Some a /\ nth_error items ib = Some b /\ ib < ia)) /\
  (forall c w1 w2, destroys c = true ->
                   storage (perform iso_formats c w1) = storage (perform iso_formats c w2)).
Proof.
  intros w l cA cB a b between after.
  split; [repeat split; left; now split|].
  apply (later_append_comes_first iso_formats w l cA cB a b between after);
    try reflexivity.
  left. now split.
Defined.

Lemma statistics_of_valid_collection_witness :
  let w := perform_all iso_formats [sample_call 1 "7"; sample_call 2 "Claude"] fresh_world in
  let l := [sample 2 "Claude"; sample 1 "7"] in
  let agents := map (field_string "agent") l in
  let types := map (field_string "type") l in
  let statuses := map (field_string "status") l in
  (collection w = Ok (JArr l) /\
   all_valid iso_formats l /\
   (forall r, In r l ->
              mem_string (field_string "agent" r) Object_prototype_names = false)) /\
  exists stats,
    getStatistics integral_Number_toString w = (Ok stats, snd (getActivities None w)) /\
    total stats = List.length l /\
    recentActivity stats = firstn 10 l /\
    tallied agents (byAgent stats) /\
    tallied types (byType stats) /\
    tallied statuses (byStatus stats) /\
    Object_keys (byType stats) = first_seen types /\
    Object_keys (byStatus stats) = first_seen statuses /\
    exists indices,
      Object_keys (byAgent stats)
      = indices ++ filter (fun k => negb (is_index k)) (first_seen agents) /\
      Permutation indices (filter is_index (first_seen agents)) /\
      ascending indices.
Proof.
  intros w l agents types statuses.
  assert (Hp : forall r, In r l ->
             mem_string (field_string "agent" r) Object_prototype_names = false).
  { intros r [<- | [<- | []]]; reflexivity. }
  split; [split; [reflexivity | split; [repeat constructor | exact Hp]]|].
  apply (statistics_of_valid_collection iso_formats integral_Number_toString w l);
    [reflexivity | repeat constructor | exact Hp].
Defined.

(** * Further properties of the store and of its readers *)

Section StoreEdges.

Variable format_ok : string -> string -> bool.

#[local] Abbreviation valid := (validate format_ok).
#[local] Abbreviation perform_all := (perform_all format_ok).
#[local] Abbreviation reachable := (reachable format_ok).
#[local] Abbreviation all_valid := (all_valid format_ok).

Lemma world_eta w : mkWorld (storage w) (trace w ++ []) = w.
Proof. destruct w. cbn. now rewrite app_nil_r. Qed.

(** X1.  [getActivities] never throws, whatever the slot holds and whatever
    the limit; it leaves the slot as it is, and all it adds to the trace
    are console errors: it writes nothing and dispatches nothing. *)
Theorem getActivities_only_reads limit w :
  exists j errors,
    getActivities limit w = (Ok j, mkWorld (storage w) (trace w ++ errors)) /\
    read_errors errors.
Proof.
  destruct (getActivities_cases limit w) as [[j E] | [e E]].
  - exists j, []. rewrite world_eta. split; [exact E | intros x []].
  - exists (JArr []), [Console (FailedToRetrieve e)]. split; [exact E|].
    intros x [<- | []]. now eexists.
Qed.

(** X3.  When the slot holds a non-empty text that does not parse, a valid
    append reports the read error, then overwrites the slot with an array
    that holds the new record alone, dispatches it and returns [true]. *)
Theorem log_replaces_unreadable_slot w s id ts agent action type status metadata :
  storage w = Some (Raw s) -> s <> "" ->
  valid (candidate id ts agent action type status metadata) = true ->
  let a := candidate id ts agent action type status metadata in
  log format_ok id ts agent action type status metadata w
  = (Ok true,
     mkWorld (Some (Doc (JArr [a])))
             (trace w ++ [Console (FailedToRetrieve SyntaxError);
                          SetItem (Doc (JArr [a]));
                          Dispatch (Activity a) (Some (Doc (JArr [a])))])).
Proof.
  intros Hs Hne Hv a. unfold log.
  fold (candidate id ts agent action type status metadata). fold a in Hv |- *.
  rewrite Hv. cbn [negb]. unfold try_catch at 1. unfold bind at 1.
  rewrite (getActivities_unreadable w s None Hs Hne).
  unfold unshift, bind, ret. rewrite truncate_firstn.
  unfold localStorage_setItem, dispatchEvent, JSON_stringify.
  cbn [storage trace]. rewrite <- !app_assoc. reflexivity.
Qed.

(** X4.  When the slot holds the text of a JSON value that is not an
    array, an append of a valid record fails: [unshift] throws, the catch
    reports it, the result is [false], the slot keeps its content and
    nothing is dispatched. *)
Theorem log_fails_on_non_array_slot w j id ts agent action type status metadata :
  storage w = Some (Doc j) -> (forall l, j <> JArr l) ->
  valid (candidate id ts agent action type status metadata) = true ->
  log format_ok id ts agent action type status metadata w
  = (Ok false, mkWorld (storage w) (trace w ++ [Console (FailedToLog TypeError)])).
Proof.
  intros Hs Hj Hv. unfold log.
  fold (candidate id ts agent action type status metadata).
  rewrite Hv. cbn [negb]. unfold try_catch at 1. unfold bind at 1.
  assert (E : getActivities None w = (Ok j, w)).
  { unfold getActivities, try_catch, bind, localStorage_getItem. rewrite Hs. reflexivity. }
  rewrite E. destruct j; try reflexivity. now destruct (Hj items).
Qed.

(** X5.  A successful append to a collection of [n] records leaves
    min (n + 1, MAX_ACTIVITIES) records: nothing is evicted while there is
    room, and a collection that an import made longer than the cap is cut
    back to exactly MAX_ACTIVITIES. *)
Theorem log_restores_cap w l id ts agent action type status metadata :
  holds w l ->
  valid (candidate id ts agent action type status metadata) = true ->
  exists w' l',
    log format_ok id ts agent action type status metadata w = (Ok true, w') /\
    collection w' = Ok (JArr l') /\
    List.length l' = Nat.min (S (List.length l)) MAX_ACTIVITIES /\
    (List.length l < MAX_ACTIVITIES ->
     l' = candidate id ts agent action type status metadata :: l).
Proof.
  intros Hw Hv.
  exists (appended (candidate id ts agent action type status metadata) l w),
         (firstn MAX_ACTIVITIES (candidate id ts agent action type status metadata :: l)).
  split; [now apply log_valid|].
  unfold collection.
  rewrite (getActivities_holds _ (firstn MAX_ACTIVITIES
             (candidate id ts agent action type status metadata :: l)))
    by (right; reflexivity).
  split; [reflexivity|]. split.
  - rewrite length_firstn. cbn [List.length]. lia.
  - intros Hlt. apply firstn_all2. cbn [List.length]. lia.
Qed.

End StoreEdges.

(** * Further properties of the validator *)

Section ValidatorProperties.

Variable format_ok : string -> string -> bool.

#[local] Abbreviation valid := (validate format_ok).
#[local] Abbreviation reachable := (reachable format_ok).
#[local] Abbreviation record_shape := (record_shape format_ok).

Lemma conforms_id d :
  conforms format_ok id_schema d = true <->
  (exists q, d = JNum q) \/ (exists s, d = JStr s).
Proof.
  destruct d; cbn; split; try discriminate; try (intros [[? [=]] | [? [=]]]; fail).
  - intros _. left. now eexists.
  - reflexivity.
  - intros _. right. now eexists.
  - reflexivity.
Qed.

Lemma conforms_timestamp d :
  conforms format_ok timestamp_schema d = true <->
  exists s, d = JStr s /\ format_ok "date-time" s = true.
Proof.
  destruct d; cbn; split; try discriminate; try (intros (? & [=] & _); fail).
  - intros H. now exists s.
  - now intros (? & [= <-] & H).
Qed.

Lemma has_prop_In {A} k (o : list (string * A)) :
  has_prop k o = true <-> In k (map fst o).
Proof. rewrite has_prop_mem. apply mem_string_In. Qed.

Lemma known_keys_only keys (props : list (string * json)) :
  forallb (fun kv => mem_string (fst kv) keys) props = true <->
  (forall k, has_prop k props = true -> In k keys).
Proof.
  rewrite forallb_forall. split.
  - intros H k Hk. apply has_prop_In, in_map_iff in Hk.
    destruct Hk as ([k' v] & <- & Hin). apply mem_string_In. exact (H _ Hin).
  - intros H [k v] Hin. apply mem_string_In. apply H. apply has_prop_In.
    apply in_map_iff. now exists (k, v).
Qed.

Lemma valid_object_shape props :
  valid (JObj props) = true <-> record_shape props.
Proof.
  unfold validate, activity_schema, object, record_shape.
  cbn [conforms check_type check_enum existsb has_type orb andb].
  cbn [forallb fst snd]. unfold has_prop at 1 2 3 4 5 6. rewrite !andb_true_iff.
  rewrite known_keys_only.
  change (map fst
            [("id", id_schema); ("timestamp", timestamp_schema);
             ("agent", agent_schema); ("action", action_schema);
             ("type", type_schema); ("status", status_schema);
             ("metadata", metadata_schema)]) with top_level_keys.
  unfold type_schema, status_schema.
  destruct (get_prop "id" props) as [vi|];
    [|split; [intros [[(? & _) _] _]; discriminate | intros (_ & (? & [=] & _) & _)]].
  destruct (get_prop "timestamp" props) as [vt|];
    [|split; [intros [[(_ & ? & _) _] _]; discriminate
             | intros (_ & _ & (? & [=] & _) & _)]].
  destruct (get_prop "agent" props) as [va|];
    [|split; [intros [[(_ & _ & ? & _) _] _]; discriminate
             | intros (_ & _ & _ & (? & [=] & _) & _)]].
  destruct (get_prop "action" props) as [vc|];
    [|split; [intros [[(_ & _ & _ & ? & _) _] _]; discriminate
             | intros (_ & _ & _ & _ & (? & [=] & _) & _)]].
  destruct (get_prop "type" props) as [vy|];
    [|split; [intros [[(_ & _ & _ & _ & ? & _) _] _]; discriminate
             | intros (_ & _ & _ & _ & _ & (? & [=] & _) & _)]].
  destruct (get_prop "status" props) as [vs|];
    [|split; [intros [[(_ & _ & _ & _ & _ & ? & _) _] _]; discriminate
             | intros (_ & _ & _ & _ & _ & _ & (? & [=] & _) & _)]].
  rewrite conforms_id, conforms_timestamp, !conforms_nonempty_string, !conforms_enum.
  split.
  - intros [[_ (Hi & (st & -> & Ht) & (sa & -> & Ha) & (sc & -> & Hc)
                   & (sy & -> & Hy) & (ss & -> & Hs) & Hm & _)] Hk].
    repeat split; eauto.
    intros v Hv. rewrite Hv in Hm. exact Hm.
  - intros (Hk & (v & [= <-] & Hi) & (st & [= ->] & Ht) & (sa & [= ->] & Ha)
               & (sc & [= ->] & Hc) & (sy & [= ->] & Hy) & (ss & [= ->] & Hs) & Hm).
    repeat split; eauto.
    destruct (get_prop "metadata" props); [now apply Hm | reflexivity].
Qed.

(** X6.  [validate] accepts exactly the objects that have no key besides
    the seven of the schema, hold a number or a string as id, a string of
    date-time format as timestamp, non-empty strings as agent and action,
    a type and a status of the enumerations and, when they have metadata,
    metadata that conforms; every value that is not an object is
    rejected.  The metadata key itself is optional. *)
Theorem validate_accepts_exactly d :
  valid d = true <-> exists props, d = JObj props /\ record_shape props.
Proof.
  split.
  - intros H. destruct d; try discriminate H.
    exists props. split; [reflexivity | now apply valid_object_shape].
  - intros (props & -> & H). now apply valid_object_shape.
Qed.

Lemma forallb_agree {A} (f g : A -> bool) l :
  (forall x, In x l -> f x = g x) -> forallb f l = forallb g l.
Proof.
  induction l as [|x l IH]; intros H; [reflexivity|]. cbn [forallb].
  rewrite (H x (or_introl eq_refl)), IH; [reflexivity|].
  intros y Hy. apply H. now right.
Qed.

(** An object schema that admits additional properties looks only at the
    keys it names. *)
Lemma conforms_object_agree req ps fields fields' :
  (forall k, In k (req ++ map fst ps) -> get_prop k fields' = get_prop k fields) ->
  conforms format_ok (object req ps true) (JObj fields')
  = conforms format_ok (object req ps true) (JObj fields).
Proof.
  intros H. unfold object. cbn [conforms check_type check_enum existsb has_type orb andb].
  f_equal. f_equal.
  - apply forallb_agree. intros k Hk. unfold has_prop.
    rewrite (H k); [reflexivity | apply in_or_app; now left].
  - apply forallb_agree. intros [k sk] Hk. cbn [fst snd].
    rewrite (H k); [reflexivity|]. apply in_or_app. right.
    apply in_map_iff. now exists (k, sk).
Qed.

Lemma get_prop_app_other {A} k k' (v : A) fields :
  k <> k' -> get_prop k (fields ++ [(k', v)]) = get_prop k fields.
Proof.
  intros Hk. induction fields as [|[k0 v0] fields IH]; cbn [app get_prop].
  - apply String.eqb_neq in Hk. now rewrite Hk.
  - destruct (String.eqb k k0); [reflexivity | exact IH].
Qed.

(** X7.  Metadata may carry keys the schema does not name: adding such a
    key, with any value, to metadata that conforms gives metadata that
    conforms. *)
Theorem metadata_tolerates_unknown_keys md k v :
  conforms format_ok metadata_schema (JObj md) = true ->
  ~ In k metadata_keys ->
  conforms format_ok metadata_schema (JObj (md ++ [(k, v)])) = true.
Proof.
  intros H Hk. rewrite <- H. unfold metadata_schema.
  apply conforms_object_agree. intros k' Hk'. cbn [app] in Hk'.
  apply get_prop_app_other. intros ->. now apply Hk.
Qed.

End ValidatorProperties.

(** * Further properties of the readers *)

Section ReaderProperties.

Variable format_ok : string -> string -> bool.
Variable Number_toString : Q -> string.

#[local] Abbreviation valid := (validate format_ok).
#[local] Abbreviation all_valid := (all_valid format_ok).

Lemma field_is_null k v w : field_is k v JNull w = (Throw TypeError, w).
Proof. reflexivity. Qed.

Lemma field_is_not_null k v a w :
  a <> JNull -> exists b, field_is k v a w = (Ok b, w).
Proof.
  intros H. destruct a; [now destruct H | now eexists ..].
Qed.

Lemma Array_filter_null k v l w :
  In JNull l -> Array_filter l (field_is k v) w = (Throw TypeError, w).
Proof.
  induction l as [|a l IH]; intros Hin; [destruct Hin|].
  cbn [Array_filter]. unfold bind at 1.
  destruct (field_is k v a w) as [[keep | e] w'] eqn:E.
  - destruct a; try discriminate E.
    all: destruct Hin as [Hin | Hin]; [discriminate Hin|].
    all: injection E as _ <-; unfold bind at 1; rewrite (IH Hin); reflexivity.
  - destruct a; try discriminate E. injection E as <- <-. reflexivity.
Qed.

Lemma count_activity_null stats w :
  count_activity Number_toString stats JNull w = (Throw TypeError, w).
Proof. reflexivity. Qed.

Lemma count_activity_not_null stats a w :
  a <> JNull -> exists stats', count_activity Number_toString stats a w = (Ok stats', w).
Proof.
  intros H. destruct a; [now destruct H | now eexists ..].
Qed.

Lemma forEach_null l : forall stats w,
  In JNull l ->
  forEach l (count_activity Number_toString) stats w = (Throw TypeError, w).
Proof.
  induction l as [|a l IH]; intros stats w Hin; [destruct Hin|].
  cbn [forEach]. unfold bind.
  destruct (count_activity Number_toString stats a w) as [[stats' | e] w'] eqn:E.
  - destruct a; try discriminate E.
    all: destruct Hin as [Hin | Hin]; [discriminate Hin|].
    all: injection E as _ <-; now apply IH.
  - destruct a; try discriminate E. injection E as <- <-. reflexivity.
Qed.

(** X9.  When the slot holds the text of a JSON value that is not an array
    of values other than null (a non-array, or an array with a null
    element), [getActivities] still returns that value, while
    [getStatistics], [getActivitiesByAgent] and [getActivitiesByType]
    throw a TypeError that nothing catches; the slot and the trace stay as
    they were. *)
Theorem readers_throw_on_malformed_array w j v limit :
  storage w = Some (Doc j) ->
  (forall l, j = JArr l -> In JNull l) ->
  getActivities None w = (Ok j, w) /\
  getStatistics Number_toString w = (Throw TypeError, w) /\
  getActivitiesByAgent v limit w = (Throw TypeError, w) /\
  getActivitiesByType v limit w = (Throw TypeError, w).
Proof.
  intros Hs Hj.
  assert (E : getActivities None w = (Ok j, w)).
  { unfold getActivities, try_catch, bind, localStorage_getItem. rewrite Hs. reflexivity. }
  split; [exact E|]. repeat split.
  - unfold getStatistics, bind. rewrite E. destruct j; try reflexivity.
    apply forEach_null. now apply Hj.
  - unfold getActivitiesByAgent, bind. rewrite E. destruct j; try reflexivity.
    unfold filter_method. rewrite Array_filter_null; [reflexivity | now apply Hj].
  - unfold getActivitiesByType, bind. rewrite E. destruct j; try reflexivity.
    unfold filter_method. rewrite Array_filter_null; [reflexivity | now apply Hj].
Qed.

Lemma field_is_valid k v r w :
  valid r = true ->
  k = "agent" \/ k = "type" \/ k = "status" ->
  field_is k v r w = (Ok (matches k v r), w).
Proof.
  intros H Hk.
  destruct (valid_record format_ok r H) as (props & a & t & s & -> & Ea & _ & Et & _ & Es & _).
  unfold field_is, matches, field_string, bind, read_prop, ret.
  destruct Hk as [-> | [-> | ->]]; [rewrite Ea | rewrite Et | rewrite Es]; reflexivity.
Qed.

Lemma Array_filter_valid k v l w :
  all_valid l ->
  k = "agent" \/ k = "type" \/ k = "status" ->
  Array_filter l (field_is k v) w = (Ok (filter (matches k v) l), w).
Proof.
  intros Hv Hk. induction l as [|r l IH]; [reflexivity|].
  inversion Hv as [|? ? Hr Hl]; subst. cbn [Array_filter filter]. unfold bind.
  rewrite (field_is_valid _ _ _ _ Hr Hk), (IH Hl). unfold ret.
  destruct (matches k v r); reflexivity.
Qed.

Lemma limit_array_limited l limit w :
  limit_array l limit w = (Ok (JArr (limited limit l)), w).
Proof.
  unfold limit_array, limited. destruct (truthy_limit limit); reflexivity.
Qed.

Lemma by_field_valid k v limit w l :
  holds w l -> all_valid l ->
  k = "agent" \/ k = "type" \/ k = "status" ->
  (activities <- getActivities None ;;
   activities <- filter_method activities (field_is k v) ;;
   limit_array activities limit)%js w
  = (Ok (JArr (limited limit (filter (matches k v) l))), w).
Proof.
  intros Hw Hv Hk. unfold bind at 1. rewrite (getActivities_holds _ _ Hw).
  unfold bind, filter_method. rewrite (Array_filter_valid _ _ _ _ Hv Hk).
  apply limit_array_limited.
Qed.

Lemma matches_string k s r :
  matches k (Some (JStr s)) r = true <-> field_string k r = s.
Proof. unfold matches, strict_equal. apply String.eqb_eq. Qed.

(** X10.  On a collection of schema-valid records, [getActivitiesByAgent]
    and [getActivitiesByType] return, without any effect, the records
    whose field is strictly equal to the argument, in the order of the
    collection, cut by the limit after the filtering (a limit of 0 or none
    keeps them all).  For a string argument every returned record is a
    record of the collection that holds that string. *)
Theorem queries_by_field w l v limit :
  holds w l -> all_valid l ->
  getActivitiesByAgent v limit w
  = (Ok (JArr (limited limit (filter (matches "agent" v) l))), w) /\
  getActivitiesByType v limit w
  = (Ok (JArr (limited limit (filter (matches "type" v) l))), w) /\
  (forall s r, v = Some (JStr s) ->
     (In r (limited limit (filter (matches "agent" v) l)) ->
      In r l /\ field_string "agent" r = s) /\
     (In r (limited limit (filter (matches "type" v) l)) ->
      In r l /\ field_string "type" r = s)).
Proof.
  intros Hw Hv. split; [|split].
  - apply by_field_valid; auto.
  - apply by_field_valid; auto.
  - intros s r ->. split; intros Hin; apply limited_incl, filter_In in Hin;
      destruct Hin as [Hin Hm]; (split; [exact Hin | now apply matches_string]).
Qed.

Lemma getStatistics_valid w l :
  holds w l -> all_valid l ->
  getStatistics Number_toString w
  = (Ok (mkStatistics (List.length l)
           (fold_left count_key (map (field_string "agent") l) [])
           (fold_left count_key (map (field_string "type") l) [])
           (fold_left count_key (map (field_string "status") l) [])
           (firstn 10 l)), w).
Proof.
  intros Hw Hv. unfold getStatistics, bind. rewrite (getActivities_holds _ _ Hw).
  rewrite (forEach_valid format_ok Number_toString _ _ _ Hv), fold_counted.
  cbn [total byAgent byType byStatus recentActivity]. now rewrite slice_ten.
Qed.

Lemma count_occ_map_filter (f : json -> string) l s :
  count_occ string_dec (map f l) s
  = List.length (filter (fun r => String.eqb (f r) s) l).
Proof.
  induction l as [|r l IH]; [reflexivity|]. cbn [map count_occ filter].
  destruct (string_dec (f r) s) as [E | E].
  - rewrite E, String.eqb_refl. cbn [List.length]. now rewrite IH.
  - apply String.eqb_neq in E. now rewrite E.
Qed.

Lemma count_by_type_valid w l t :
  holds w l -> all_valid l ->
  count_by_type t w = count_occ string_dec (map (field_string "type") l) t.
Proof.
  intros Hw Hv. unfold count_by_type, getActivitiesByType.
  rewrite (by_field_valid "type" (Some (JStr t)) None w l Hw Hv) by auto.
  cbn [fst]. unfold limited. cbn [truthy_limit]. now rewrite count_occ_map_filter.
Qed.

Lemma valid_types_plain l :
  all_valid l ->
  forall k, In k (map (field_string "type") l) ->
            mem_string k Object_prototype_names = false.
Proof.
  intros Hv k Hk. apply in_map_iff in Hk. destruct Hk as (r & <- & Hr).
  unfold all_valid in Hv. rewrite Forall_forall in Hv.
  apply enum_key_plain. left. apply (valid_type_key format_ok). now apply Hv.
Qed.

(** X11.  The statistics agree with the filtered queries.  On a collection
    of schema-valid records, the count [byType] holds for a type is the
    number of records [getActivitiesByType] returns for it (and the key is
    absent exactly when there is none); the same holds of [byAgent] and
    [getActivitiesByAgent] when no agent of the collection is named like a
    member of [Object.prototype]. *)
Theorem statistics_agree_with_queries w l :
  holds w l -> all_valid l ->
  exists stats,
    getStatistics Number_toString w = (Ok stats, w) /\
    (forall t,
       get_prop t (byType stats)
       = if Nat.eqb (count_by_type t w) 0 then None
         else Some (Count (count_by_type t w))) /\
    ((forall r, In r l ->
                mem_string (field_string "agent" r) Object_prototype_names = false) ->
     forall a, exists items,
       getActivitiesByAgent (Some (JStr a)) None w = (Ok (JArr items), w) /\
       get_prop a (byAgent stats)
       = if Nat.eqb (List.length items) 0 then None
         else Some (Count (List.length items))).
Proof.
  intros Hw Hv. eexists. split; [exact (getStatistics_valid w l Hw Hv)|].
  cbn [byType byAgent]. split.
  - intros t. rewrite (count_by_type_valid _ _ _ Hw Hv).
    apply (tallied_fold _ (valid_types_plain _ Hv)).
  - intros Hp a. eexists. split.
    + unfold getActivitiesByAgent.
      apply (by_field_valid "agent" (Some (JStr a)) None w l Hw Hv). auto.
    + unfold limited. cbn [truthy_limit].
      change (filter (matches "agent" (Some (JStr a))) l)
        with (filter (fun r => String.eqb (field_string "agent" r) a) l).
      rewrite <- count_occ_map_filter. apply tallied_fold.
      intros k Hk. apply in_map_iff in Hk. destruct Hk as (r & <- & Hr). now apply Hp.
Qed.

Lemma list_sum_step a l : list_sum (a :: l) = a + list_sum l.
Proof. reflexivity. Qed.

Lemma list_sum_indicator ts x :
  list_sum (map (fun t => if String.eqb x t then 1 else 0) ts)
  = count_occ string_dec ts x.
Proof.
  induction ts as [|t ts IH]; [reflexivity|]. cbn [map count_occ].
  rewrite list_sum_step, IH. destruct (string_dec t x) as [-> | E].
  - now rewrite String.eqb_refl.
  - apply not_eq_sym in E. apply String.eqb_neq in E. now rewrite E.
Qed.

Lemma list_sum_map_add {A} (f g : A -> nat) l :
  list_sum (map (fun x => f x + g x) l) = list_sum (map f l) + list_sum (map g l).
Proof.
  induction l as [|x l IH]; [reflexivity|]. cbn [map].
  rewrite !list_sum_step, IH. lia.
Qed.

Lemma type_enum_once t : In t type_enum -> count_occ string_dec type_enum t = 1.
Proof.
  intros H. cbn [In type_enum] in H.
  repeat (destruct H as [<- | H]; [reflexivity|]). destruct H.
Qed.

Lemma views_partition l :
  (forall r, In r l -> In (field_string "type" r) type_enum) ->
  list_sum (map (count_occ string_dec (map (field_string "type") l)) type_enum)
  = List.length l.
Proof.
  induction l as [|r l IH]; intros H.
  - cbn [map count_occ List.length]. clear H. generalize type_enum. intros ts.
    induction ts as [|t ts IHts]; [reflexivity | exact IHts].
  - cbn [map List.length].
    rewrite (map_ext _ (fun t => (if String.eqb (field_string "type" r) t then 1 else 0)
                                 + count_occ string_dec (map (field_string "type") l) t)).
    + rewrite list_sum_map_add, list_sum_indicator, IH
        by (intros r' Hr'; apply H; now right).
      rewrite type_enum_once; [reflexivity|]. apply H. now left.
    + intros t. cbn [count_occ].
      destruct (string_dec (field_string "type" r) t) as [-> | E].
      * now rewrite String.eqb_refl.
      * apply String.eqb_neq in E. now rewrite E.
Qed.

(** X12.  The views by type partition the collection: on a collection of
    schema-valid records, the numbers of records that
    [getActivitiesByType] returns for the twelve types of the schema add up
    to the number of records. *)
Theorem views_by_type_partition w l :
  holds w l -> all_valid l ->
  list_sum (map (fun t => count_by_type t w) type_enum) = List.length l.
Proof.
  intros Hw Hv.
  rewrite (map_ext _ (count_occ string_dec (map (field_string "type") l))).
  - apply views_partition. intros r Hr.
    unfold all_valid in Hv. rewrite Forall_forall in Hv.
    apply (valid_type_key format_ok). now apply Hv.
  - intros t. now apply count_by_type_valid.
Qed.

Lemma apply_filter_valid k element l w :
  all_valid l ->
  k = "agent" \/ k = "type" \/ k = "status" ->
  Dashboard.apply_filter k element (JArr l) w = (Ok (JArr (filter (passes k element) l)), w).
Proof.
  intros Hv Hk. unfold Dashboard.apply_filter, passes.
  destruct (Dashboard.filter_value element) as [v|].
  - unfold bind, filter_method. now rewrite (Array_filter_valid _ _ _ _ Hv Hk).
  - unfold ret. f_equal. f_equal. f_equal. symmetry.
    apply forallb_filter_id. now apply forallb_forall.
Qed.

Lemma filter_valid (p : json -> bool) l : all_valid l -> all_valid (filter p l).
Proof.
  intros Hv. apply Forall_forall. intros r Hr. apply filter_In in Hr.
  unfold all_valid in Hv. rewrite Forall_forall in Hv. now apply Hv.
Qed.

Lemma limited_valid limit l : all_valid l -> all_valid (limited limit l).
Proof.
  intros Hv. apply Forall_forall. intros r Hr. apply limited_incl in Hr.
  unfold all_valid in Hv. rewrite Forall_forall in Hv. now apply Hv.
Qed.

Lemma filter_filter {A} (p q : A -> bool) l :
  filter q (filter p l) = filter (fun x => p x && q x) l.
Proof.
  induction l as [|x l IH]; [reflexivity|]. cbn [filter].
  destruct (p x); cbn [filter andb]; [|exact IH].
  destruct (q x); now rewrite IH.
Qed.

Lemma getFilteredActivities_valid w l maxActivities fa ft fs :
  holds w l -> all_valid l ->
  Dashboard.getFilteredActivities maxActivities true fa ft fs w
  = (Ok (JArr (filter (fun r => passes "agent" fa r && passes "type" ft r
                                && passes "status" fs r)
                      (limited maxActivities l))), w).
Proof.
  intros Hw Hv. unfold Dashboard.getFilteredActivities, bind.
  rewrite (getActivities_limit_holds _ _ maxActivities Hw).
  rewrite apply_filter_valid by (auto using limited_valid).
  rewrite apply_filter_valid by (auto using limited_valid, filter_valid).
  rewrite apply_filter_valid by (auto using limited_valid, filter_valid).
  rewrite !filter_filter. do 3 f_equal. apply filter_ext. intros r.
  destruct (passes "agent" fa r), (passes "type" ft r), (passes "status" fs r);
    reflexivity.
Qed.

(** X13.  With the filters shown, the dashboard lists, of the first
    [maxActivities] records of a schema-valid collection (all of them when
    that option is 0 or absent), those that pass every select element that
    has a non-empty value: the filters combine as a conjunction, so the
    order in which they apply does not matter, a missing or empty element
    filters nothing, and the store is not touched. *)
Theorem dashboard_filters_combine w l maxActivities fa ft fs :
  holds w l -> all_valid l ->
  exists shown,
    Dashboard.getFilteredActivities maxActivities true fa ft fs w = (Ok (JArr shown), w) /\
    (forall r, In r shown <->
               In r (limited maxActivities l) /\
               passes "agent" fa r = true /\ passes "type" ft r = true /\
               passes "status" fs r = true) /\
    shown = filter (passes "status" fs)
              (filter (passes "agent" fa)
                 (filter (passes "type" ft) (limited maxActivities l))).
Proof.
  intros Hw Hv. eexists.
  split; [exact (getFilteredActivities_valid w l maxActivities fa ft fs Hw Hv)|]. split.
  - intros r. rewrite filter_In, !andb_true_iff. tauto.
  - rewrite !filter_filter. apply filter_ext. intros r.
    destruct (passes "agent" fa r), (passes "type" ft r), (passes "status" fs r);
      reflexivity.
Qed.

Lemma filter_firstn_prefix {A} (p : A -> bool) n l :
  filter p (firstn n l) = firstn (List.length (filter p (firstn n l))) (filter p l).
Proof.
  revert n. induction l as [|x l IH]; intros [|n]; cbn [firstn filter List.length];
    try reflexivity.
  destruct (p x); cbn [List.length firstn]; [f_equal|]; apply IH.
Qed.

Lemma filter_length_firstn {A} (p : A -> bool) n l :
  List.length (filter p (firstn n l)) <= n.
Proof.
  pose proof (filter_length_le p (firstn n l)). pose proof (firstn_le_length n l). lia.
Qed.

Lemma filter_drops {A} (p : A -> bool) l :
  List.length (filter p l) < List.length l <-> exists r, In r l /\ p r = false.
Proof.
  induction l as [|x l IH]; cbn [filter List.length In].
  - split; [lia | intros (r & [] & _)].
  - pose proof (filter_length_le p l) as Hle.
    destruct (p x) eqn:E; cbn [List.length].
    + rewrite <- Nat.succ_lt_mono, IH. split.
      * intros (r & Hr & Hp). exists r. split; [now right | exact Hp].
      * intros (r & [<- | Hr] & Hp); [congruence | now exists r].
    + split; [|lia]. intros _. exists x. split; [now left | exact E].
Qed.

Lemma filter_keeps {A} (p : A -> bool) l :
  0 < List.length (filter p l) <-> exists r, In r l /\ p r = true.
Proof.
  split.
  - destruct (filter p l) as [|r rest] eqn:E; cbn [List.length]; [lia|].
    intros _. exists r. apply filter_In. rewrite E. now left.
  - intros (r & Hr). apply filter_In in Hr.
    destruct (filter p l); [destruct Hr | cbn [List.length]; lia].
Qed.

(** X14.  The dashboard cuts before it filters, the query by agent filters
    before it cuts.  With the same positive limit [n] and the same agent, on
    a schema-valid collection, the dashboard lists the records of the agent
    among the first [n] of the collection, the query returns the first [n]
    of the records of the agent.  The dashboard's list is a prefix of the
    query's result, and it is strictly shorter exactly when one of the first
    [n] records belongs to another agent while a record of the agent lies
    beyond them. *)
Theorem dashboard_lists_prefix_of_query w l n agent :
  holds w l -> all_valid l -> (0 < n)%Z -> agent <> "" ->
  let of_agent := matches "agent" (Some (JStr agent)) in
  exists shown found,
    Dashboard.getFilteredActivities (Some n) true (Some agent) None None w
    = (Ok (JArr shown), w) /\
    getActivitiesByAgent (Some (JStr agent)) (Some n) w = (Ok (JArr found), w) /\
    shown = filter of_agent (firstn (Z.to_nat n) l) /\
    found = firstn (Z.to_nat n) (filter of_agent l) /\
    shown = firstn (List.length shown) found /\
    List.length shown <= List.length found <= Z.to_nat n /\
    (List.length shown < List.length found <->
     (exists r, In r (firstn (Z.to_nat n) l) /\ of_agent r = false) /\
     (exists r, In r (skipn (Z.to_nat n) l) /\ of_agent r = true)).
Proof.
  intros Hw Hv Hn Ha p.
  assert (El : forall l' : list json,
             limited (Some n) l' = firstn (Z.to_nat n) l').
  { intros l'. unfold limited, truthy_limit, slice_end.
    destruct (Z.eqb_spec n 0); [lia|]. destruct (Z.ltb_spec n 0); [lia|].
    destruct (Z.le_ge_cases n (Z.of_nat (List.length l'))).
    - now rewrite Z.min_l.
    - rewrite Z.min_r, Nat2Z.id, firstn_all by assumption.
      symmetry. apply firstn_all2. lia. }
  assert (Ep : forall r, (passes "agent" (Some agent) r && passes "type" None r
                          && passes "status" None r) = p r).
  { intros r. unfold passes. destruct agent; [now destruct Ha|].
    cbn [Dashboard.filter_value]. now rewrite !andb_true_r. }
  eexists. eexists.
  split; [exact (getFilteredActivities_valid w l (Some n) (Some agent) None None Hw Hv)|].
  split.
  { unfold getActivitiesByAgent.
    apply (by_field_valid "agent" (Some (JStr agent)) (Some n) w l Hw Hv). auto. }
  rewrite !El, (filter_ext _ _ Ep). fold p.
  set (N := Z.to_nat n).
  pose proof (filter_length_firstn p N l) as Hle.
  assert (Hsplit : List.length (filter p l)
                   = List.length (filter p (firstn N l))
                     + List.length (filter p (skipn N l))).
  { rewrite <- (firstn_skipn N l) at 1. now rewrite filter_app, length_app. }
  split; [reflexivity|]. split; [reflexivity|]. split; [|split].
  - rewrite (filter_firstn_prefix p N l) at 1.
    rewrite firstn_firstn. f_equal. lia.
  - rewrite length_firstn. lia.
  - rewrite length_firstn, <- filter_drops, <- filter_keeps.
    pose proof (firstn_le_length N l) as HN.
    pose proof (filter_length_le p (firstn N l)) as Hf.
    split.
    + intros H. split; [|lia].
      assert (Hk : 0 < List.length (filter p (skipn N l))) by lia.
      apply filter_keeps in Hk. destruct Hk as (r & Hr & _).
      assert (Hs : 0 < List.length (skipn N l))
        by (destruct (skipn N l); [destruct Hr | cbn [List.length]; lia]).
      rewrite length_skipn in Hs. rewrite length_firstn. lia.
    + intros [H1 H2]. lia.
Qed.

Lemma tally_for_proto n : tally_for "__proto__" n = None.
Proof. unfold tally_for. now destruct (Nat.eqb n 0). Qed.

Lemma tally_for_named v n :
  v <> "__proto__" -> n <> 0 ->
  tally_for v n
  = Some (if mem_string v Object_prototype_names then Glued v n else Count n).
Proof.
  intros Hv Hn. unfold tally_for.
  apply Nat.eqb_neq in Hn. apply String.eqb_neq in Hv. rewrite Hn, Hv.
  now destruct (mem_string v Object_prototype_names).
Qed.

Lemma count_key_step o v (c : string -> nat) :
  (forall k, get_prop k o = tally_for k (c k)) ->
  forall k, get_prop k (count_key o v)
            = tally_for k (c k + (if String.eqb k v then 1 else 0)).
Proof.
  intros IH k. unfold count_key. rewrite (IH v).
  destruct (String.eqb_spec v "__proto__") as [-> | Hp].
  - rewrite tally_for_proto. cbn [String.eqb Ascii.eqb Bool.eqb].
    destruct (String.eqb_spec k "__proto__") as [-> | Hk].
    + now rewrite IH, !tally_for_proto.
    + now rewrite Nat.add_0_r.
  - destruct (Nat.eq_dec (c v) 0) as [E0 | E0].
    + unfold tally_for at 1. rewrite E0. cbn [Nat.eqb].
      destruct (String.eqb_spec k v) as [-> | Hk].
      * rewrite E0. cbn [Nat.add]. rewrite tally_for_named by (assumption || lia).
        destruct (mem_string v Object_prototype_names);
          now rewrite get_prop_set_prop, String.eqb_refl.
      * rewrite Nat.add_0_r, <- IH. apply String.eqb_neq in Hk.
        destruct (mem_string v Object_prototype_names);
          now rewrite get_prop_set_prop, Hk.
    + rewrite (tally_for_named v (c v) Hp E0).
      destruct (String.eqb_spec k v) as [-> | Hk].
      * rewrite tally_for_named by (assumption || lia).
        destruct (mem_string v Object_prototype_names);
          now rewrite get_prop_set_prop, String.eqb_refl.
      * rewrite Nat.add_0_r, <- IH. apply String.eqb_neq in Hk.
        destruct (mem_string v Object_prototype_names);
          now rewrite get_prop_set_prop, Hk.
Qed.

Lemma count_key_get keys : forall k,
  get_prop k (fold_left count_key keys [])
  = tally_for k (count_occ string_dec keys k).
Proof.
  induction keys as [|v keys IH] using rev_ind; intros k; [reflexivity|].
  rewrite fold_left_app, count_occ_snoc. cbn [fold_left].
  now apply count_key_step.
Qed.

(** X17.  What [byAgent] holds, for every agent name.  On a collection of
    schema-valid records, an agent that occurs [n] times maps to the count
    [n], unless [Object.prototype] defines its name: then the key holds
    text instead of a count, and under [__proto__] there is no key at all.
    An agent that does not occur has no key. *)
Theorem byAgent_for_every_name w l :
  holds w l -> all_valid l ->
  exists stats,
    getStatistics Number_toString w = (Ok stats, w) /\
    forall a,
      get_prop a (byAgent stats)
      = tally_for a (count_occ string_dec (map (field_string "agent") l) a).
Proof.
  intros Hw Hv. eexists. split; [exact (getStatistics_valid w l Hw Hv)|].
  cbn [byAgent]. apply count_key_get.
Qed.

Lemma NoDup_first_seen keys : NoDup (first_seen keys).
Proof.
  induction keys as [|v keys IH] using rev_ind; [constructor|].
  rewrite first_seen_snoc. destruct (mem_string v (first_seen keys)) eqn:E; [exact IH|].
  apply NoDup_app; [exact IH | repeat constructor; intros [] |].
  intros a Ha [<- | []]. apply mem_string_In in Ha. congruence.
Qed.

Lemma filter_split_perm {A} (p : A -> bool) l :
  Permutation (filter p l ++ filter (fun x => negb (p x)) l) l.
Proof.
  induction l as [|x l IH]; [constructor|]. cbn [filter].
  destruct (p x); cbn [negb app].
  - now constructor.
  - etransitivity; [symmetry; apply Permutation_middle | now constructor].
Qed.

Lemma Object_keys_perm {A} (o : list (string * A)) :
  Permutation (Object_keys o) (map fst o).
Proof.
  destruct (Object_keys_order o) as (ix & -> & Hp & _).
  rewrite Hp. apply filter_split_perm.
Qed.

Lemma keys_of_tallied keys o :
  tallied keys o ->
  NoDup (Object_keys o) /\ (forall k, In k (Object_keys o) <-> In k keys).
Proof.
  intros (Hk & _). pose proof (Object_keys_perm o) as Hp. rewrite Hk in Hp. split.
  - apply (Permutation_NoDup (Permutation_sym Hp)). apply NoDup_first_seen.
  - intros k. rewrite <- (first_seen_In keys k). split; apply Permutation_in;
      [exact Hp | now apply Permutation_sym].
Qed.

(** X18.  The options of the three filter selects.  On a collection of
    schema-valid records, [Object.keys] of [byType] and of [byStatus]
    lists exactly the types and the statuses that occur in the collection,
    each once; so does [Object.keys] of [byAgent] for the agents, when no
    agent is named like a member of [Object.prototype]. *)
Theorem filter_options_list_what_occurs w l :
  holds w l -> all_valid l ->
  exists stats,
    getStatistics Number_toString w = (Ok stats, w) /\
    NoDup (Object_keys (byType stats)) /\
    (forall t, In t (Object_keys (byType stats)) <->
               exists r, In r l /\ field_string "type" r = t) /\
    NoDup (Object_keys (byStatus stats)) /\
    (forall s, In s (Object_keys (byStatus stats)) <->
               exists r, In r l /\ field_string "status" r = s) /\
    ((forall r, In r l ->
                mem_string (field_string "agent" r) Object_prototype_names = false) ->
     NoDup (Object_keys (byAgent stats)) /\
     (forall a, In a (Object_keys (byAgent stats)) <->
                exists r, In r l /\ field_string "agent" r = a)).
Proof.
  intros Hw Hv. eexists. split; [exact (getStatistics_valid w l Hw Hv)|].
  cbn [byType byStatus byAgent].
  assert (Hin : forall k x, In x (map (field_string k) l) <->
                            exists r, In r l /\ field_string k r = x).
  { intros k x. rewrite in_map_iff. split; intros (r & H1 & H2); exists r; tauto. }
  assert (Hs : forall k, In k (map (field_string "status") l) ->
                         mem_string k Object_prototype_names = false).
  { intros k Hk. apply in_map_iff in Hk. destruct Hk as (r & <- & Hr).
    unfold all_valid in Hv. rewrite Forall_forall in Hv.
    apply enum_key_plain. right. apply (valid_status_key format_ok). now apply Hv. }
  destruct (keys_of_tallied _ _ (tallied_fold _ (valid_types_plain _ Hv))) as [N1 I1].
  destruct (keys_of_tallied _ _ (tallied_fold _ Hs)) as [N2 I2].
  split; [exact N1|]. split; [intros t; now rewrite I1|].
  split; [exact N2|]. split; [intros t; now rewrite I2|].
  intros Hp.
  assert (Ha : forall k, In k (map (field_string "agent") l) ->
                         mem_string k Object_prototype_names = false).
  { intros k Hk. apply in_map_iff in Hk. destruct Hk as (r & <- & Hr). now apply Hp. }
  destruct (keys_of_tallied _ _ (tallied_fold _ Ha)) as [N3 I3].
  split; [exact N3 | intros a; now rewrite I3].
Qed.

End ReaderProperties.

(** * Further properties of the dashboard helpers *)

Section DashboardProperties.

Variable format_ok : string -> string -> bool.

#[local] Abbreviation valid := (validate format_ok).

(** X15.  [formatTimestamp] shows the age in the largest unit that has
    begun, rounded down: seconds below a minute, minutes below an hour,
    hours below a day, days from then on, so the number shown with s and m
    is below 60 and with h below 24.  A moment in the future is shown as a
    negative number of seconds, however far ahead it lies. *)
Theorem formatTimestamp_units now timestamp :
  let age := (now - timestamp)%Z in
  let shown := Dashboard.formatTimestamp now timestamp in
  ((age < 0)%Z /\
   exists n, (n < 0)%Z /\ shown = (Dashboard.show_integer n ++ "s ago")%string /\
             (1000 * n <= age < 1000 * (n + 1))%Z) \/
  ((0 <= age)%Z /\
   exists n, (0 <= n)%Z /\
     ((shown = (Dashboard.show_integer n ++ "s ago")%string /\ (n < 60)%Z /\
       (1000 * n <= age < 1000 * (n + 1))%Z) \/
      (shown = (Dashboard.show_integer n ++ "m ago")%string /\ (1 <= n < 60)%Z /\
       (60000 * n <= age < 60000 * (n + 1))%Z) \/
      (shown = (Dashboard.show_integer n ++ "h ago")%string /\ (1 <= n < 24)%Z /\
       (3600000 * n <= age < 3600000 * (n + 1))%Z) \/
      (shown = (Dashboard.show_integer n ++ "d ago")%string /\ (1 <= n)%Z /\
       (86400000 * n <= age < 86400000 * (n + 1))%Z))).
Proof.
  intros age shown. subst shown. unfold Dashboard.formatTimestamp. fold age.
  destruct (Z.ltb_spec (age / 1000) 60) as [H1 | H1].
  - destruct (Z.lt_ge_cases age 0) as [Hneg | Hpos].
    + left. split; [assumption|]. exists (age / 1000)%Z.
      split; [|split; [reflexivity|]]; Z.div_mod_to_equations; lia.
    + right. split; [assumption|]. exists (age / 1000)%Z.
      split; [Z.div_mod_to_equations; lia|]. left.
      split; [reflexivity|]. Z.div_mod_to_equations. lia.
  - right. split; [Z.div_mod_to_equations; lia|].
    destruct (Z.ltb_spec (age / 1000) 3600) as [H2 | H2].
    + exists (age / 1000 / 60)%Z. split; [Z.div_mod_to_equations; lia|].
      right. left. split; [reflexivity|]. Z.div_mod_to_equations. lia.
    + destruct (Z.ltb_spec (age / 1000) 86400) as [H3 | H3].
      * exists (age / 1000 / 3600)%Z. split; [Z.div_mod_to_equations; lia|].
        right. right. left. split; [reflexivity|]. Z.div_mod_to_equations. lia.
      * exists (age / 1000 / 86400)%Z. split; [Z.div_mod_to_equations; lia|].
        right. right. right. split; [reflexivity|]. Z.div_mod_to_equations. lia.
Qed.

Lemma type_styled t :
  In t type_enum ->
  exists style, Dashboard.type_of_activity t = Dashboard.Own style /\
                get_prop t Dashboard.typeConfig = Some style.
Proof.
  intros H. cbn [In type_enum] in H.
  repeat (destruct H as [<- | H]; [eexists; split; reflexivity|]). destruct H.
Qed.

Lemma status_styled s :
  In s status_enum ->
  exists style, Dashboard.status_of_activity s = Dashboard.Own style /\
                get_prop s Dashboard.statusConfig = Some style.
Proof.
  intros H. cbn [In status_enum] in H.
  repeat (destruct H as [<- | H]; [eexists; split; reflexivity|]). destruct H.
Qed.

(** X16.  The style tables cover the schema.  For every schema-valid
    record the lookups of its type and of its status in
    [createActivityHTML] find an entry of their own, so the fallback to
    info is never taken; the lookup of its agent finds the agent's own
    entry or, for an agent without one, the entry of Claude, provided the
    agent is not named like a member of [Object.prototype]. *)
Theorem styles_cover_valid_records r :
  valid r = true ->
  (exists style,
     Dashboard.type_of_activity (field_string "type" r) = Dashboard.Own style /\
     get_prop (field_string "type" r) Dashboard.typeConfig = Some style) /\
  (exists style,
     Dashboard.status_of_activity (field_string "status" r) = Dashboard.Own style /\
     get_prop (field_string "status" r) Dashboard.statusConfig = Some style) /\
  (mem_string (field_string "agent" r) Object_prototype_names = false ->
   exists style,
     Dashboard.agent_of_activity (field_string "agent" r) = Dashboard.Own style /\
     (get_prop (field_string "agent" r) Dashboard.agentConfig = Some style \/
      (get_prop (field_string "agent" r) Dashboard.agentConfig = None /\
       get_prop "Claude" Dashboard.agentConfig = Some style))).
Proof.
  intros H. split; [|split].
  - apply type_styled. now apply (valid_type_key format_ok).
  - apply status_styled. now apply (valid_status_key format_ok).
  - intros Hp. unfold Dashboard.agent_of_activity, Dashboard.lookup_or, Dashboard.lookup.
    destruct (get_prop (field_string "agent" r) Dashboard.agentConfig) as [style|] eqn:E.
    + exists style. split; [reflexivity | now left].
    + rewrite Hp. eexists. split; [reflexivity|]. right. split; reflexivity.
Qed.

End DashboardProperties.

(** * The further properties at concrete inputs *)

Lemma two_logged_holds : holds two_logged two_records.
Proof. right. reflexivity. Qed.

Lemma two_records_valid : all_valid iso_formats two_records.
Proof. repeat constructor. Qed.

Lemma two_records_plain r :
  In r two_records ->
  mem_string (field_string "agent" r) Object_prototype_names = false.
Proof. intros [<- | [<- | []]]; reflexivity. Qed.

Lemma log_replaces_unreadable_slot_witness :
  let w := mkWorld (Some (Raw "not json")) [] in
  let a := candidate (inject_Z 1) sample_timestamp (Some (JStr "Claude"))
                     (Some (JStr "Fixed syntax error")) None None None in
  (storage w = Some (Raw "not json") /\ "not json" <> "" /\
   validate iso_formats a = true) /\
  log iso_formats (inject_Z 1) sample_timestamp (Some (JStr "Claude"))
      (Some (JStr "Fixed syntax error")) None None None w
  = (Ok true,
     mkWorld (Some (Doc (JArr [a])))
             (trace w ++ [Console (FailedToRetrieve SyntaxError);
                          SetItem (Doc (JArr [a]));
                          Dispatch (Activity a) (Some (Doc (JArr [a])))])).
Proof.
  intros w a. split; [repeat split; discriminate|].
  apply (log_replaces_unreadable_slot iso_formats w "not json");
    [reflexivity | discriminate | reflexivity].
Defined.

Lemma log_fails_on_non_array_slot_witness :
  let w := mkWorld (Some (Doc (JObj []))) [] in
  (storage w = Some (Doc (JObj [])) /\ (forall l, JObj [] <> JArr l) /\
   validate iso_formats
     (candidate (inject_Z 1) sample_timestamp (Some (JStr "Claude"))
                (Some (JStr "Fixed syntax error")) None None None) = true) /\
  log iso_formats (inject_Z 1) sample_timestamp (Some (JStr "Claude"))
      (Some (JStr "Fixed syntax error")) None None None w
  = (Ok false, mkWorld (storage w) (trace w ++ [Console (FailedToLog TypeError)])).
Proof.
  intros w. split; [repeat split; discriminate|].
  apply (log_fails_on_non_array_slot iso_formats w (JObj []));
    [reflexivity | discriminate | reflexivity].
Defined.

Lemma log_restores_cap_witness :
  (holds two_logged two_records /\
   validate iso_formats
     (candidate (inject_Z 3) sample_timestamp (Some (JStr "GPT-4"))
                (Some (JStr "Fixed syntax error")) None None None) = true) /\
  exists w' l',
    log iso_formats (inject_Z 3) sample_timestamp (Some (JStr "GPT-4"))
        (Some (JStr "Fixed syntax error")) None None None two_logged = (Ok true, w') /\
    collection w' = Ok (JArr l') /\
    List.length l' = Nat.min (S (List.length two_records)) MAX_ACTIVITIES /\
    (List.length two_records < MAX_ACTIVITIES ->
     l' = candidate (inject_Z 3) sample_timestamp (Some (JStr "GPT-4"))
                    (Some (JStr "Fixed syntax error")) None None None :: two_records).
Proof.
  split; [split; [exact two_logged_holds | reflexivity]|].
  apply (log_restores_cap iso_formats two_logged two_records);
    [exact two_logged_holds | reflexivity].
Defined.

Lemma metadata_tolerates_unknown_keys_witness :
  let md := [("confidence", JNum (1 # 2))] in
  (conforms iso_formats metadata_schema (JObj md) = true /\
   ~ In "reviewer" metadata_keys) /\
  conforms iso_formats metadata_schema (JObj (md ++ [("reviewer", JNull)])) = true.
Proof.
  intros md.
  assert (Hk : ~ In "reviewer" metadata_keys).
  { cbn. intros H. repeat (destruct H as [H | H]; [discriminate H|]). exact H. }
  split; [split; [reflexivity | exact Hk]|].
  apply (metadata_tolerates_unknown_keys iso_formats md "reviewer" JNull);
    [reflexivity | exact Hk].
Defined.

Lemma readers_throw_on_malformed_array_witness :
  let w := mkWorld (Some (Doc (JArr [JNull]))) [] in
  (storage w = Some (Doc (JArr [JNull])) /\
   (forall l, JArr [JNull] = JArr l -> In JNull l)) /\
  getActivities None w = (Ok (JArr [JNull]), w) /\
  getStatistics integral_Number_toString w = (Throw TypeError, w) /\
  getActivitiesByAgent (Some (JStr "Claude")) None w = (Throw TypeError, w) /\
  getActivitiesByType (Some (JStr "Claude")) None w = (Throw TypeError, w).
Proof.
  intros w.
  assert (Hj : forall l, JArr [JNull] = JArr l -> In JNull l).
  { intros l [= <-]. now left. }
  split; [split; [reflexivity | exact Hj]|].
  apply (readers_throw_on_malformed_array integral_Number_toString w (JArr [JNull]));
    [reflexivity | exact Hj].
Defined.

Lemma queries_by_field_witness :
  let v := Some (JStr "Claude") in
  let limit := Some 5%Z in
  (holds two_logged two_records /\ all_valid iso_formats two_records) /\
  getActivitiesByAgent v limit two_logged
  = (Ok (JArr (limited limit (filter (matches "agent" v) two_records))), two_logged) /\
  getActivitiesByType v limit two_logged
  = (Ok (JArr (limited limit (filter (matches "type" v) two_records))), two_logged) /\
  (forall s r, v = Some (JStr s) ->
     (In r (limited limit (filter (matches "agent" v) two_records)) ->
      In r two_records /\ field_string "agent" r = s) /\
     (In r (limited limit (filter (matches "type" v) two_records)) ->
      In r two_records /\ field_string "type" r = s)).
Proof.
  intros v limit. split; [split; [exact two_logged_holds | exact two_records_valid]|].
  exact (queries_by_field iso_formats two_logged two_records v limit
           two_logged_holds two_records_valid).
Defined.

Lemma statistics_agree_with_queries_witness :
  (holds two_logged two_records /\ all_valid iso_formats two_records) /\
  exists stats,
    getStatistics integral_Number_toString two_logged = (Ok stats, two_logged) /\
    (forall t,
       get_prop t (byType stats)
       = if Nat.eqb (count_by_type t two_logged) 0 then None
         else Some (Count (count_by_type t two_logged))) /\
    ((forall r, In r two_records ->
                mem_string (field_string "agent" r) Object_prototype_names = false) ->
     forall a, exists items,
       getActivitiesByAgent (Some (JStr a)) None two_logged
       = (Ok (JArr items), two_logged) /\
       get_prop a (byAgent stats)
       = if Nat.eqb (List.length items) 0 then None
         else Some (Count (List.length items))).
Proof.
  split; [split; [exact two_logged_holds | exact two_records_valid]|].
  exact (statistics_agree_with_queries iso_formats integral_Number_toString
           two_logged two_records two_logged_holds two_records_valid).
Defined.

Lemma views_by_type_partition_witness :
  (holds two_logged two_records /\ all_valid iso_formats two_records) /\
  list_sum (map (fun t => count_by_type t two_logged) type_enum)
  = List.length two_records.
Proof.
  split; [split; [exact two_logged_holds | exact two_records_valid]|].
  exact (views_by_type_partition iso_formats two_logged two_records
           two_logged_holds two_records_valid).
Defined.

Lemma dashboard_filters_combine_witness :
  let maxActivities := Some Dashboard.default_maxActivities in
  let fa := Some "Claude" in
  let ft := Some "" in
  let fs := @None string in
  (holds two_logged two_records /\ all_valid iso_formats two_records) /\
  exists shown,
    Dashboard.getFilteredActivities maxActivities true fa ft fs two_logged
    = (Ok (JArr shown), two_logged) /\
    (forall r, In r shown <->
               In r (limited maxActivities two_records) /\
               passes "agent" fa r = true /\ passes "type" ft r = true /\
               passes "status" fs r = true) /\
    shown = filter (passes "status" fs)
              (filter (passes "agent" fa)
                 (filter (passes "type" ft) (limited maxActivities two_records))).
Proof.
  intros maxActivities fa ft fs.
  split; [split; [exact two_logged_holds | exact two_records_valid]|].
  exact (dashboard_filters_combine iso_formats two_logged two_records maxActivities
           fa ft fs two_logged_holds two_records_valid).
Defined.

Lemma dashboard_lists_prefix_of_query_witness :
  ((holds two_logged two_records /\ all_valid iso_formats two_records) /\
   (0 < 1)%Z /\ "7" <> "") /\
  exists shown found,
    (Dashboard.getFilteredActivities (Some 1%Z) true (Some "7") None None two_logged
     = (Ok (JArr shown), two_logged) /\
     getActivitiesByAgent (Some (JStr "7")) (Some 1%Z) two_logged
     = (Ok (JArr found), two_logged)) /\
    shown = [] /\ found = [sample 1 "7"] /\
    List.length shown < List.length found.
Proof.
  assert (H7 : "7" <> "") by discriminate.
  split; [split; [split; [exact two_logged_holds | exact two_records_valid]
                 | split; [reflexivity | exact H7]]|].
  destruct (dashboard_lists_prefix_of_query iso_formats two_logged two_records 1 "7"
              two_logged_holds two_records_valid eq_refl H7)
    as (shown & found & Hs & Hf & -> & -> & _).
  exists (filter (matches "agent" (Some (JStr "7"))) (firstn (Z.to_nat 1) two_records)),
    (firstn (Z.to_nat 1) (filter (matches "agent" (Some (JStr "7"))) two_records)).
  split; [split; [exact Hs | exact Hf]|].
  split; [reflexivity|]. split; [reflexivity|]. exact (le_n 1).
Defined.

Lemma byAgent_for_every_name_witness :
  (holds two_logged two_records /\ all_valid iso_formats two_records) /\
  exists stats,
    getStatistics integral_Number_toString two_logged = (Ok stats, two_logged) /\
    forall a,
      get_prop a (byAgent stats)
      = tally_for a (count_occ string_dec (map (field_string "agent") two_records) a).
Proof.
  split; [split; [exact two_logged_holds | exact two_records_valid]|].
  exact (byAgent_for_every_name iso_formats integral_Number_toString
           two_logged two_records two_logged_holds two_records_valid).
Defined.

Lemma filter_options_list_what_occurs_witness :
  (holds two_logged two_records /\ all_valid iso_formats two_records) /\
  exists stats,
    getStatistics integral_Number_toString two_logged = (Ok stats, two_logged) /\
    NoDup (Object_keys (byType stats)) /\
    (forall t, In t (Object_keys (byType stats)) <->
               exists r, In r two_records /\ field_string "type" r = t) /\
    NoDup (Object_keys (byStatus stats)) /\
    (forall s, In s (Object_keys (byStatus stats)) <->
               exists r, In r two_records /\ field_string "status" r = s) /\
    ((forall r, In r two_records ->
                mem_string (field_string "agent" r) Object_prototype_names = false) ->
     NoDup (Object_keys (byAgent stats)) /\
     (forall a, In a (Object_keys (byAgent stats)) <->
                exists r, In r two_records /\ field_string "agent" r = a)).
Proof.
  split; [split; [exact two_logged_holds | exact two_records_valid]|].
  exact (filter_options_list_what_occurs iso_formats integral_Number_toString
           two_logged two_records two_logged_holds two_records_valid).
Defined.

Lemma styles_cover_valid_records_witness :
  let r := sample 1 "Gemini" in
  validate iso_formats r = true /\
  (exists style,
     Dashboard.type_of_activity (field_string "type" r) = Dashboard.Own style /\
     get_prop (field_string "type" r) Dashboard.typeConfig = Some style) /\
  (exists style,
     Dashboard.status_of_activity (field_string "status" r) = Dashboard.Own style /\
     get_prop (field_string "status" r) Dashboard.statusConfig = Some style) /\
  (mem_string (field_string "agent" r) Object_prototype_names = false ->
   exists style,
     Dashboard.agent_of_activity (field_string "agent" r) = Dashboard.Own style /\
     (get_prop (field_string "agent" r) Dashboard.agentConfig = Some style \/
      (get_prop (field_string "agent" r) Dashboard.agentConfig = None /\
       get_prop "Claude" Dashboard.agentConfig = Some style))).
Proof.
  intros r. split; [reflexivity|].
  exact (styles_cover_valid_records iso_formats r eq_refl).
Defined.

(** * The store when a number need not be finite: properties

    In the sections of this part that open with [Import Wide], the names
    [value], [validate], [getActivities], [log], [importActivities],
    [perform_all], [World] and the like are those of the module [Wide]. *)

Section WideValues.

Import Wide.

(** Induction on a value, with the elements of an array and the values of
    an object's properties as premises. *)
Lemma value_induction (P : value -> Prop) :
  P VNull -> (forall b, P (VBool b)) -> (forall n, P (VNum n)) ->
  (forall s, P (VStr s)) ->
  (forall l, Forall P l -> P (VArr l)) ->
  (forall props, Forall (fun kv => P (snd kv)) props -> P (VObj props)) ->
  forall v, P v.
Proof.
  intros HNull HBool HNum HStr HArr HObj.
  exact (fix IH (v : value) : P v :=
           match v with
           | VNull => HNull
           | VBool b => HBool b
           | VNum n => HNum n
           | VStr s => HStr s
           | VArr l =>
               HArr l ((fix all (l : list value) : Forall P l :=
                          match l with
                          | [] => Forall_nil _
                          | x :: rest => Forall_cons x (IH x) (all rest)
                          end) l)
           | VObj props =>
               HObj props
                 ((fix all (l : list (string * value))
                     : Forall (fun kv => P (snd kv)) l :=
                     match l with
                     | [] => Forall_nil _
                     | kv :: rest => Forall_cons kv (IH (snd kv)) (all rest)
                     end) props)
           end).
Qed.

(** A value whose numbers are finite is written as it is. *)
Lemma written_finite v : finite v = true -> written v = v.
Proof.
  induction v as [| b | n | s | l IH | props IH] using value_induction;
    cbn [finite written]; intros H; try reflexivity.
  - destruct n; [reflexivity | discriminate H | discriminate H].
  - f_equal. induction IH as [|x l Hx _ IHl]; [reflexivity|].
    cbn [forallb] in H. apply andb_true_iff in H. destruct H as [H1 H2].
    cbn [map]. now rewrite Hx, IHl.
  - f_equal. induction IH as [|[k x] l Hx _ IHl]; [reflexivity|].
    cbn [forallb snd] in H. apply andb_true_iff in H. destruct H as [H1 H2].
    cbn [map fst snd] in *. now rewrite Hx, IHl.
Qed.

(** What is written holds finite numbers only. *)
Lemma finite_written v : finite (written v) = true.
Proof.
  induction v as [| b | n | s | l IH | props IH] using value_induction;
    cbn [finite written]; try reflexivity.
  - now destruct n.
  - cbn [finite]. induction IH as [|x l Hx _ IHl]; [reflexivity|].
    cbn [map forallb]. now rewrite Hx, IHl.
  - cbn [finite]. induction IH as [|[k x] l Hx _ IHl]; [reflexivity|].
    cbn [map forallb fst snd] in *. now rewrite Hx, IHl.
Qed.

Lemma written_written v : written (written v) = written v.
Proof. apply written_finite, finite_written. Qed.

Lemma get_prop_written k props :
  get_prop k (map (fun kv => (fst kv, written (snd kv))) props)
  = option_map written (get_prop k props).
Proof.
  induction props as [|[k' x] props IH]; [reflexivity|].
  cbn [map get_prop fst snd]. destruct (String.eqb k k'); [reflexivity | exact IH].
Qed.

Lemma of_json_finite j : finite (of_json j) = true.
Proof.
  revert j.
  exact (fix IH (j : json) : finite (of_json j) = true :=
           match j with
           | JArr l =>
               (fix all (l : list json) : forallb finite (map of_json l) = true :=
                  match l with
                  | [] => eq_refl
                  | x :: rest => proj2 (andb_true_iff _ _) (conj (IH x) (all rest))
                  end) l
           | JObj props =>
               (fix all (l : list (string * json))
                  : forallb (fun kv => finite (snd kv))
                      (map (fun kv => (fst kv, of_json (snd kv))) l) = true :=
                  match l with
                  | [] => eq_refl
                  | kv :: rest => proj2 (andb_true_iff _ _) (conj (IH (snd kv)) (all rest))
                  end) props
           | _ => eq_refl
           end).
Qed.

End WideValues.

Section WideStore.

Import Wide.

Variable format_ok : string -> string -> bool.

#[local] Abbreviation valid := (validate format_ok).
#[local] Abbreviation perform := (perform format_ok).
#[local] Abbreviation perform_all := (perform_all format_ok).
#[local] Abbreviation written_by := (written_by format_ok).
#[local] Abbreviation store_ok := (store_ok format_ok).

Lemma wide_getActivities_holds w l :
  holds w l -> getActivities None w = (Ok (VArr l), w).
Proof.
  intros [[H ->] | H]; unfold getActivities, try_catch, bind, localStorage_getItem;
    rewrite H; reflexivity.
Qed.

Lemma wide_getActivities_limit_holds w l limit :
  holds w l ->
  exists items,
    getActivities limit w = (Ok (VArr items), w) /\ forall r, In r items -> In r l.
Proof.
  intros [[H ->] | H]; unfold getActivities, try_catch, bind, localStorage_getItem;
    rewrite H; cbn [truthy_item JSON_parse ret];
    destruct (truthy_limit limit); cbn [slice ret];
    eexists; (split; [reflexivity|]); intros r Hr;
    try exact Hr; now apply firstn_In in Hr.
Qed.

Lemma wide_truncate_firstn (l : list value) :
  (if Nat.ltb MAX_ACTIVITIES (List.length l) then firstn MAX_ACTIVITIES l else l)
  = firstn MAX_ACTIVITIES l.
Proof.
  destruct (Nat.ltb MAX_ACTIVITIES (List.length l)) eqn:E; [reflexivity|].
  apply Nat.ltb_ge in E. symmetry. now apply firstn_all2.
Qed.

Lemma wide_log_invalid w id ts agent action type status metadata :
  valid (candidate id ts agent action type status metadata) = false ->
  log format_ok id ts agent action type status metadata w
  = (Ok false, mkWorld (storage w) (trace w ++ [Console InvalidActivityFormat])).
Proof.
  intros H. unfold log. fold (candidate id ts agent action type status metadata).
  rewrite H. reflexivity.
Qed.

Lemma wide_log_valid w l id ts agent action type status metadata :
  holds w l ->
  let a := candidate id ts agent action type status metadata in
  let t := Doc (VArr (map written (firstn MAX_ACTIVITIES (a :: l)))) in
  valid a = true ->
  log format_ok id ts agent action type status metadata w
  = (Ok true,
     mkWorld (Some t) (trace w ++ [SetItem t; Dispatch (Activity a) (Some t)])).
Proof.
  intros Hw a t H. unfold log. fold (candidate id ts agent action type status metadata).
  fold a. rewrite H. cbn [negb]. unfold try_catch at 1. unfold bind at 1.
  rewrite (wide_getActivities_holds _ _ Hw).
  unfold unshift, bind, ret. rewrite wide_truncate_firstn.
  unfold localStorage_setItem, dispatchEvent, JSON_stringify.
  cbn [storage trace written]. rewrite <- app_assoc. reflexivity.
Qed.

Lemma wide_clear_eq w :
  clear w = (Ok true, mkWorld None (trace w ++ [RemoveItem; Dispatch Cleared None])).
Proof.
  unfold clear, try_catch, bind, localStorage_removeItem, dispatchEvent, ret.
  cbn [storage trace]. rewrite <- app_assoc. reflexivity.
Qed.

Lemma wide_import_array w batch :
  let t := Doc (VArr (map written (filter valid batch))) in
  importActivities format_ok (Doc (VArr batch)) w
  = (Ok true,
     mkWorld (Some t)
       (trace w ++ skipped (List.length batch - List.length (filter valid batch))
              ++ [SetItem t; Dispatch Imported (Some t)])).
Proof.
  intros t. unfold importActivities, try_catch. unfold bind at 1. cbn [JSON_parse ret].
  unfold bind, console, localStorage_setItem, dispatchEvent, ret, JSON_stringify.
  destruct (Nat.eqb (List.length (filter valid batch)) (List.length batch)) eqn:E;
    cbn [negb storage trace written].
  - rewrite (filter_length_eqb _ _ E). cbn [skipped app].
    rewrite <- !app_assoc. reflexivity.
  - apply Nat.eqb_neq in E.
    pose proof (filter_length_le valid batch) as Hle.
    destruct (List.length batch - List.length (filter valid batch)) eqn:D; [lia|].
    cbn [skipped]. rewrite <- !app_assoc. reflexivity.
Qed.

Lemma wide_import_unparseable w s :
  importActivities format_ok (Raw s) w
  = (Ok false, mkWorld (storage w) (trace w ++ [Console (FailedToImport SyntaxError)])).
Proof. reflexivity. Qed.

Lemma wide_import_not_array w v :
  (forall l, v <> VArr l) ->
  importActivities format_ok (Doc v) w
  = (Ok false, mkWorld (storage w) (trace w ++ [Console (FailedToImport TypeError)])).
Proof.
  intros H. destruct v; try reflexivity. now destruct (H items).
Qed.

(** *** The records of the store are written forms of validated values *)

Lemma written_by_more cs c r : written_by cs r -> written_by (cs ++ [c]) r.
Proof.
  intros (v & Hin & Hv & ->). exists v. repeat split; [|assumption].
  rewrite flat_map_app. apply in_or_app. now left.
Qed.

Lemma written_by_last cs c v :
  In v (submitted c) -> valid v = true -> written_by (cs ++ [c]) (written v).
Proof.
  intros Hin Hv. exists v. repeat split; [|assumption].
  rewrite flat_map_app. apply in_or_app. right. cbn [flat_map]. now rewrite app_nil_r.
Qed.

Lemma written_by_written cs r : written_by cs r -> written r = r.
Proof. intros (v & _ & _ & ->). apply written_written. Qed.

Lemma wide_perform_store_ok cs c w :
  store_ok cs w -> store_ok (cs ++ [c]) (perform c w).
Proof.
  intros (l & Hw & Hl).
  assert (Hkeep : forall w', storage w' = storage w -> store_ok (cs ++ [c]) w').
  { intros w' E. exists l. split; [unfold holds; now rewrite E|].
    revert Hl. apply Forall_impl. intros r. apply written_by_more. }
  destruct c as [id ts agent action type status metadata | | jsonData]; cbn [perform].
  - destruct (valid (candidate id ts agent action type status metadata)) eqn:E.
    + rewrite (wide_log_valid _ _ _ _ _ _ _ _ _ Hw E). cbn [snd].
      eexists. split; [right; reflexivity|].
      apply Forall_forall. intros r Hr. apply in_map_iff in Hr.
      destruct Hr as (x & <- & Hx). apply firstn_In in Hx. destruct Hx as [<- | Hx].
      * apply written_by_last; [now left | exact E].
      * rewrite Forall_forall in Hl. specialize (Hl x Hx).
        rewrite (written_by_written _ _ Hl). now apply written_by_more.
    + rewrite (wide_log_invalid _ _ _ _ _ _ _ _ E). now apply Hkeep.
  - rewrite wide_clear_eq. exists []. split; [left; now split | constructor].
  - destruct jsonData as [v | s].
    + destruct v; try (rewrite wide_import_not_array by discriminate; now apply Hkeep).
      rewrite wide_import_array. cbn [snd].
      eexists. split; [right; reflexivity|].
      apply Forall_forall. intros r Hr. apply in_map_iff in Hr.
      destruct Hr as (x & <- & Hx). apply filter_In in Hx. destruct Hx as [Hx Hv].
      now apply written_by_last.
    + rewrite wide_import_unparseable. now apply Hkeep.
Qed.

Lemma wide_perform_all_store_ok cs : forall cs0 w,
  store_ok cs0 w -> store_ok (cs0 ++ cs) (perform_all cs w).
Proof.
  induction cs as [|c cs IH]; intros cs0 w H.
  - now rewrite app_nil_r.
  - cbn [Wide.perform_all fold_left].
    replace (cs0 ++ c :: cs) with ((cs0 ++ [c]) ++ cs) by now rewrite <- app_assoc.
    apply IH. now apply wide_perform_store_ok.
Qed.

Lemma history_store_ok cs : store_ok cs (perform_all cs fresh_world).
Proof.
  apply (wide_perform_all_store_ok cs [] fresh_world).
  exists []. split; [left; now split | constructor].
Qed.

Lemma wide_perform_all_app cs1 cs2 w :
  perform_all (cs1 ++ cs2) w = perform_all cs2 (perform_all cs1 w).
Proof. apply fold_left_app. Qed.

End WideStore.

Section WideValidator.

Import Wide.

Variable format_ok : string -> string -> bool.

#[local] Abbreviation valid := (validate format_ok).





(** A valid value is an object whose metadata, when present, conforms. *)
Lemma wide_valid_metadata v :
  valid v = true ->
  exists props, v = VObj props /\
    forall md, get_prop "metadata" props = Some md ->
               conforms format_ok metadata_schema md = true.
Proof.
  intros H. destruct v as [| b | n | s | l | props]; try discriminate H.
  exists props. split; [reflexivity|]. intros md Hmd.
  unfold validate, activity_schema, object in H.
  cbn [conforms check_type check_enum existsb has_type orb andb] in H.
  cbn [forallb fst snd] in H. rewrite !andb_true_iff in H.
  destruct H as [[_ (_ & _ & _ & _ & _ & _ & Hm & _)] _].
  now rewrite Hmd in Hm.
Qed.

(** The bounds of the metadata schema on a value that conforms: the
    numbers that pass [minimum: 0] are the finite ones from 0 on and
    [Infinity]; only finite numbers pass [minimum: 0, maximum: 1]. *)
Lemma wide_metadata_bounds md :
  conforms format_ok metadata_schema md = true ->
  exists fields, md = VObj fields /\
  (forall v, get_prop "confidence" fields = Some v ->
             exists q, v = VNum (Finite q) /\ (0 <= q)%Q /\ (q <= 1)%Q) /\
  (forall v, get_prop "duration" fields = Some v ->
             v = VNum (Infinite false) \/
             exists q, v = VNum (Finite q) /\ (0 <= q)%Q) /\
  (forall v, get_prop "commitHash" fields = Some v ->
             exists s, v = VStr s /\ s <> "" /\ all_chars lower_hex s = true).
Proof.
  intros H. destruct md as [| b | n | s | l | fields]; try discriminate H.
  exists fields. split; [reflexivity|]. revert H.
  unfold metadata_schema, object.
  cbn [conforms check_type check_enum existsb has_type orb andb forallb fst snd].
  rewrite !andb_true_iff.
  intros [(Hh & _ & _ & Hd & Hc & _) _]. repeat split.
  - intros v Hv. rewrite Hv in Hc.
    destruct v as [| b | n | s | l | props]; try discriminate Hc.
    cbn in Hc. apply andb_true_iff in Hc. destruct Hc as [H0 H1].
    destruct n as [q | negative |]; cbn [at_least at_most] in *.
    + exists q. repeat split; now apply Qle_bool_iff.
    + destruct negative; discriminate.
    + discriminate.
  - intros v Hv. rewrite Hv in Hd.
    destruct v as [| b | n | s | l | props]; try discriminate Hd.
    cbn in Hd. rewrite andb_true_r in Hd.
    destruct n as [q | negative |]; cbn [at_least] in Hd.
    + right. exists q. split; [reflexivity|]. now apply Qle_bool_iff.
    + destruct negative; [discriminate | now left].
    + discriminate.
  - intros v Hv. rewrite Hv in Hh.
    destruct v as [| b | n | s | l | props]; try discriminate Hh.
    cbn -[existsb in_range] in Hh. rewrite !andb_true_iff in Hh.
    destruct Hh as [_ [[Hne Hall] _]].
    exists s. repeat split; [|exact Hall].
    intros ->. discriminate Hne.
Qed.

End WideValidator.

Section WideClaims.

Import Wide.

Variable format_ok : string -> string -> bool.

#[local] Abbreviation valid := (validate format_ok).
#[local] Abbreviation perform_all := (perform_all format_ok).
#[local] Abbreviation written_by := (written_by format_ok).
#[local] Abbreviation store_ok := (store_ok format_ok).

Lemma written_by_valid cs r :
  (forall v, In v (flat_map submitted cs) -> finite v = true) ->
  written_by cs r -> valid r = true.
Proof.
  intros Hf (v & Hin & Hv & ->). now rewrite (written_finite v (Hf v Hin)).
Qed.

(** What a query returns in a state the calls [history] reach. *)
Lemma history_queries_written_by history limit :
  let w := perform_all history fresh_world in
  exists items,
    getActivities limit w = (Ok (VArr items), w) /\
    forall r, In r items -> written_by history r.
Proof.
  intros w. destruct (history_store_ok format_ok history) as (l & Hl & Hv). fold w in Hl.
  destruct (wide_getActivities_limit_holds w l limit Hl) as (items & Eq & Hsub).
  exists items. split; [exact Eq|]. rewrite Forall_forall in Hv.
  intros r Hr. apply Hv, Hsub, Hr.
Qed.



(** X2.  In every state that [log], [clear] and [importActivities] reach
    from the empty store, a query, with any limit, has no effect and
    returns an array each of whose records is the written form of a value
    that one of the calls submitted and that passed validation.  When
    every number submitted was finite, all returned records satisfy the
    schema. *)
Theorem reachable_queries_written history limit :
  let w := perform_all history fresh_world in
  exists items,
    getActivities limit w = (Ok (VArr items), w) /\
    (forall r, In r items -> written_by history r /\ finite r = true) /\
    ((forall v, In v (flat_map submitted history) -> finite v = true) ->
     forall r, In r items -> valid r = true).
Proof.
  intros w. destruct (history_queries_written_by history limit) as (items & Eq & Hby).
  exists items. split; [exact Eq|]. split.
  - intros r Hr. split; [now apply Hby|].
    destruct (Hby r Hr) as (v & _ & _ & ->). apply finite_written.
  - intros Hf r Hr. apply (written_by_valid history); [exact Hf | now apply Hby].
Qed.

(** X8.  In every reachable state, in the metadata of every record a query
    returns, a confidence is a finite number between 0 and 1, a commit
    hash is a non-empty string of the characters 0-9 and a-f, and a
    duration is a finite number that is not negative or [null] (the
    written form of [Infinity], which passes [minimum: 0]). *)
Theorem stored_metadata_bounds history limit items w' r :
  getActivities limit (perform_all history fresh_world) = (Ok (VArr items), w') ->
  In r items ->
  (forall v, metadata_field "confidence" r = Some v ->
             exists q, v = VNum (Finite q) /\ (0 <= q)%Q /\ (q <= 1)%Q) /\
  (forall v, metadata_field "duration" r = Some v ->
             v = VNull \/ exists q, v = VNum (Finite q) /\ (0 <= q)%Q) /\
  (forall v, metadata_field "commitHash" r = Some v ->
             exists s, v = VStr s /\ s <> "" /\ all_chars lower_hex s = true).
Proof.
  intros Hq Hin.
  destruct (history_queries_written_by history limit) as (items' & Eq & Hby).
  rewrite Eq in Hq. assert (E : items' = items) by congruence. subst items'.
  destruct (Hby r Hin) as (v & _ & Hv & ->).
  destruct (wide_valid_metadata format_ok v Hv) as (props & -> & Hm).
  unfold metadata_field. cbn [written]. rewrite get_prop_written.
  destruct (get_prop "metadata" props) as [md|]; cbn [option_map];
    [|repeat split; intros x [=]].
  destruct (wide_metadata_bounds format_ok md (Hm md eq_refl))
    as (fields & -> & Hc & Hd & Hh).
  cbn [written]. rewrite !get_prop_written. repeat split.
  - intros x Hx. destruct (get_prop "confidence" fields) as [y|]; [|discriminate Hx].
    destruct (Hc y eq_refl) as (q & -> & H0 & H1). cbn in Hx.
    exists q. repeat split; [congruence | assumption | assumption].
  - intros x Hx. destruct (get_prop "duration" fields) as [y|]; [|discriminate Hx].
    destruct (Hd y eq_refl) as [-> | (q & -> & H0)]; cbn in Hx.
    + left. congruence.
    + right. exists q. split; [congruence | assumption].
  - intros x Hx. destruct (get_prop "commitHash" fields) as [y|]; [|discriminate Hx].
    destruct (Hh y eq_refl) as (s & -> & Hne & Hall). cbn in Hx.
    exists s. repeat split; [congruence | assumption | assumption].
Qed.

End WideClaims.

(** ** Numbers that are not finite, on concrete runs *)



(** The calls of the first run above reach a store whose one record has
    the duration [null]. *)
Lemma stored_metadata_bounds_witness :
  let history := [Wide.timed_call 1 (Wide.VNum (Wide.Infinite false))] in
  let w := Wide.perform_all iso_formats history Wide.fresh_world in
  let r := Wide.timed 1 Wide.VNull in
  (Wide.getActivities None w = (Ok (Wide.VArr [r]), w) /\ In r [r]) /\
  (forall v, Wide.metadata_field "confidence" r = Some v ->
             exists q, v = Wide.VNum (Wide.Finite q) /\ (0 <= q)%Q /\ (q <= 1)%Q) /\
  (forall v, Wide.metadata_field "duration" r = Some v ->
             v = Wide.VNull \/ exists q, v = Wide.VNum (Wide.Finite q) /\ (0 <= q)%Q) /\
  (forall v, Wide.metadata_field "commitHash" r = Some v ->
             exists s, v = Wide.VStr s /\ s <> "" /\ all_chars lower_hex s = true).
Proof.
  intros history w r.
  assert (Hq : Wide.getActivities None w = (Ok (Wide.VArr [r]), w)) by reflexivity.
  split; [split; [exact Hq | now left]|].
  apply (stored_metadata_bounds iso_formats history None [r] w r Hq). now left.
Defined.

(** * The first part is the second on values with finite numbers *)

Section FiniteFragment.

Variable format_ok : string -> string -> bool.

(** Induction on a JSON value, with the elements of an array and the
    values of an object's properties as premises. *)
Lemma json_induction (P : json -> Prop) :
  P JNull -> (forall b, P (JBool b)) -> (forall q, P (JNum q)) ->
  (forall s, P (JStr s)) ->
  (forall l, Forall P l -> P (JArr l)) ->
  (forall props, Forall (fun kv => P (snd kv)) props -> P (JObj props)) ->
  forall j, P j.
Proof.
  intros HNull HBool HNum HStr HArr HObj.
  exact (fix IH (j : json) : P j :=
           match j with
           | JNull => HNull
           | JBool b => HBool b
           | JNum q => HNum q
           | JStr s => HStr s
           | JArr l =>
               HArr l ((fix all (l : list json) : Forall P l :=
                          match l with
                          | [] => Forall_nil _
                          | x :: rest => Forall_cons x (IH x) (all rest)
                          end) l)
           | JObj props =>
               HObj props
                 ((fix all (l : list (string * json))
                     : Forall (fun kv => P (snd kv)) l :=
                     match l with
                     | [] => Forall_nil _
                     | kv :: rest => Forall_cons kv (IH (snd kv)) (all rest)
                     end) props)
           end).
Qed.

Lemma has_type_of_json j t : Wide.has_type (Wide.of_json j) t = has_type j t.
Proof. destruct j, t; reflexivity. Qed.

Lemma check_type_of_json ts j : Wide.check_type ts (Wide.of_json j) = check_type ts j.
Proof.
  unfold Wide.check_type, check_type. destruct ts as [|t ts]; [reflexivity|].
  generalize (t :: ts). intros l.
  induction l as [|t' l IH]; [reflexivity|].
  cbn [existsb]. now rewrite has_type_of_json, IH.
Qed.

Lemma check_enum_of_json e j : Wide.check_enum e (Wide.of_json j) = check_enum e j.
Proof. destruct e, j; reflexivity. Qed.

Lemma get_prop_of_json k props :
  get_prop k (map (fun kv => (fst kv, Wide.of_json (snd kv))) props)
  = option_map Wide.of_json (get_prop k props).
Proof.
  induction props as [|[k' x] props IH]; [reflexivity|].
  cbn [map get_prop fst snd]. destruct (String.eqb k k'); [reflexivity | exact IH].
Qed.

Lemma get_prop_Forall {A} (P : A -> Prop) k props v :
  Forall (fun kv => P (snd kv)) props -> get_prop k props = Some v -> P v.
Proof.
  induction 1 as [|[k' x] props Hx _ IH]; [discriminate|].
  cbn [get_prop]. destruct (String.eqb k k'); [intros [= <-]; exact Hx | exact IH].
Qed.

Lemma forallb_same {A} (f g : A -> bool) l :
  (forall x, f x = g x) -> forallb f l = forallb g l.
Proof.
  intros H. induction l as [|x l IH]; [reflexivity|]. cbn [forallb]. now rewrite H, IH.
Qed.

(** The validator of the second part agrees with that of the first. *)
Lemma conforms_of_json j : forall s,
  Wide.conforms format_ok s (Wide.of_json j) = conforms format_ok s j.
Proof.
  induction j as [| b | q | x | l IH | fields IH] using json_induction;
    intros [ty req props additional items enum minLen pat fmt lo hi];
    cbn [Wide.conforms conforms];
    rewrite check_type_of_json, check_enum_of_json; f_equal;
    cbn [Wide.of_json Wide.at_least Wide.at_most]; try reflexivity.
  - destruct items as [si|]; [|reflexivity].
    induction IH as [|y l Hy _ IHl]; [reflexivity|].
    cbn [map forallb]. now rewrite Hy, IHl.
  - f_equal; [f_equal|].
    + apply forallb_same. intros k. unfold has_prop. rewrite get_prop_of_json.
      now destruct (get_prop k fields).
    + apply forallb_same. intros [k sk]. cbn [fst snd]. rewrite get_prop_of_json.
      destruct (get_prop k fields) as [v|] eqn:E; [|reflexivity]. cbn [option_map].
      exact (get_prop_Forall
               (fun v => forall s, Wide.conforms format_ok s (Wide.of_json v)
                                   = conforms format_ok s v) k fields v IH E sk).
    + f_equal. clear IH. induction fields as [|kv fields IHf]; [reflexivity|].
      cbn [map forallb fst]. now rewrite IHf.
Qed.

Lemma validate_of_json j :
  Wide.validate format_ok (Wide.of_json j) = validate format_ok j.
Proof. apply conforms_of_json. Qed.

End FiniteFragment.

Section FiniteStore.

Variable format_ok : string -> string -> bool.

Lemma written_of_json j : Wide.written (Wide.of_json j) = Wide.of_json j.
Proof. apply written_finite, of_json_finite. Qed.

Lemma of_world_emit w e :
  Wide.mkWorld (Wide.storage (of_world w)) (Wide.trace (of_world w) ++ [of_effect e])
  = of_world (mkWorld (storage w) (trace w ++ [e])).
Proof. unfold of_world. cbn [storage trace Wide.storage Wide.trace]. now rewrite map_app. Qed.

Lemma truthy_item_of_text stored :
  Wide.truthy_item (option_map of_text stored) = option_map of_text (truthy_item stored).
Proof. destruct stored as [[j | [|c s]]|]; reflexivity. Qed.

Lemma slice_of_json j n w :
  Wide.slice (Wide.of_json j) n (of_world w)
  = (of_result (fst (slice j n w)), of_world (snd (slice j n w))).
Proof.
  destruct j; try reflexivity.
  cbn [Wide.of_json Wide.slice slice Wide.ret ret fst snd of_result].
  now rewrite length_map, firstn_map.
Qed.

(** [getActivities] of the second part, on a world of the first. *)
Lemma getActivities_of_world limit w :
  Wide.getActivities limit (of_world w)
  = (of_result (fst (getActivities limit w)), of_world (snd (getActivities limit w))).
Proof.
  unfold Wide.getActivities, getActivities, Wide.try_catch, try_catch.
  unfold Wide.bind at 1, bind at 1 4.
  unfold Wide.localStorage_getItem, localStorage_getItem.
  change (Wide.storage (of_world w)) with (option_map of_text (storage w)).
  rewrite truthy_item_of_text.
  destruct (truthy_item (storage w)) as [[j | s]|]; cbn [option_map of_text].
  - unfold Wide.bind, bind. cbn [Wide.JSON_parse JSON_parse Wide.ret ret].
    destruct (truthy_limit limit) as [n|]; [|reflexivity].
    rewrite slice_of_json.
    destruct (slice j n w) as [[j' | e] w'] eqn:E; cbn [fst snd of_result]; [reflexivity|].
    assert (w' = w) by (unfold slice, ret, throw in E; destruct j; congruence). subst w'.
    unfold Wide.console, console, emit, Wide.ret, ret. cbn [fst snd of_result].
    f_equal. exact (of_world_emit w (Console (FailedToRetrieve e))).
  - unfold Wide.bind, bind. cbn [Wide.JSON_parse JSON_parse Wide.throw throw].
    unfold Wide.console, console, emit, Wide.ret, ret. cbn [fst snd of_result].
    f_equal. exact (of_world_emit w (Console (FailedToRetrieve SyntaxError))).
  - unfold Wide.bind, bind. cbn [Wide.ret ret].
    destruct (truthy_limit limit) as [n|]; [|reflexivity].
    change (Wide.VArr []) with (Wide.of_json (JArr [])) at 1.
    rewrite slice_of_json. reflexivity.
Qed.

Lemma candidate_of_json id ts agent action type status metadata :
  Wide.candidate id ts (option_map Wide.of_json agent) (option_map Wide.of_json action)
                 (option_map Wide.of_json type) (option_map Wide.of_json status)
                 (option_map Wide.of_json metadata)
  = Wide.of_json (candidate id ts agent action type status metadata).
Proof. destruct agent, action, type, status, metadata; reflexivity. Qed.

End FiniteStore.

Section FiniteCalls.

Variable format_ok : string -> string -> bool.

Lemma of_world_write w (j : json) (e : event) :
  Wide.mkWorld (Some (Wide.Doc (Wide.of_json j)))
    ((Wide.trace (of_world w) ++ [Wide.SetItem (Wide.Doc (Wide.of_json j))])
       ++ [Wide.Dispatch (of_event e) (Some (Wide.Doc (Wide.of_json j)))])
  = of_world (mkWorld (Some (Doc j))
                ((trace w ++ [SetItem (Doc j)]) ++ [Dispatch e (Some (Doc j))])).
Proof.
  unfold of_world. cbn [storage trace Wide.storage Wide.trace option_map of_text].
  now rewrite !map_app.
Qed.

(** [log] of the second part, on arguments and a world of the first. *)
Lemma log_of_world id ts agent action type status metadata w :
  Wide.log format_ok id ts (option_map Wide.of_json agent) (option_map Wide.of_json action)
           (option_map Wide.of_json type) (option_map Wide.of_json status)
           (option_map Wide.of_json metadata) (of_world w)
  = (fst (log format_ok id ts agent action type status metadata w),
     of_world (snd (log format_ok id ts agent action type status metadata w))).
Proof.
  pose proof (candidate_of_json id ts agent action type status metadata) as Hc.
  unfold Wide.candidate, candidate in Hc.
  unfold Wide.log, log. rewrite Hc, validate_of_json.
  set (a := activity_of id ts agent action (default (JStr "info") type)
              (default (JStr "success") status) (default (JObj []) metadata)).
  destruct (validate format_ok a); cbn [negb].
  - unfold Wide.try_catch, try_catch. unfold Wide.bind at 1, bind at 1 6.
    rewrite getActivities_of_world.
    destruct (getActivities None w) as [[j | e] w1]; cbn [fst snd of_result].
    + destruct j as [| b | q | s | l | props];
        try (cbn [Wide.of_json Wide.unshift unshift Wide.bind bind Wide.throw throw];
             unfold Wide.bind, bind, Wide.console, console, emit, Wide.ret, ret;
             cbn [fst snd Wide.of_json Wide.unshift unshift Wide.throw throw];
             f_equal; exact (of_world_emit w1 (Console (FailedToLog TypeError)))).
      cbn [Wide.of_json Wide.unshift unshift].
      unfold Wide.bind, bind, Wide.ret, ret. rewrite truncate_firstn, wide_truncate_firstn.
      unfold Wide.localStorage_setItem, localStorage_setItem, Wide.dispatchEvent,
        dispatchEvent, Wide.JSON_stringify, JSON_stringify.
      cbn [fst snd Wide.storage Wide.trace storage trace].
      f_equal.
      change (Wide.of_json a :: map Wide.of_json l) with (map Wide.of_json (a :: l)).
      rewrite firstn_map.
      change (Wide.VArr (map Wide.of_json (firstn MAX_ACTIVITIES (a :: l))))
        with (Wide.of_json (JArr (firstn MAX_ACTIVITIES (a :: l)))).
      rewrite written_of_json.
      exact (of_world_write w1 (JArr (firstn MAX_ACTIVITIES (a :: l))) (Activity a)).
    + unfold Wide.bind, bind, Wide.console, console, emit, Wide.ret, ret.
      cbn [fst snd]. f_equal. exact (of_world_emit w1 (Console (FailedToLog e))).
  - unfold Wide.bind, bind, Wide.console, console, emit, Wide.ret, ret.
    cbn [fst snd]. f_equal. exact (of_world_emit w (Console InvalidActivityFormat)).
Qed.

Lemma clear_of_world w :
  Wide.clear (of_world w) = (fst (clear w), of_world (snd (clear w))).
Proof.
  unfold Wide.clear, clear, Wide.try_catch, try_catch, Wide.bind, bind,
    Wide.localStorage_removeItem, localStorage_removeItem, Wide.dispatchEvent,
    dispatchEvent, Wide.ret, ret.
  cbn [fst snd storage trace Wide.storage Wide.trace]. f_equal.
  unfold of_world. cbn [storage trace option_map]. now rewrite !map_app.
Qed.

Lemma filter_of_json batch :
  filter (Wide.validate format_ok) (map Wide.of_json batch)
  = map Wide.of_json (filter (validate format_ok) batch).
Proof.
  induction batch as [|r batch IH]; [reflexivity|].
  cbn [map filter]. rewrite validate_of_json, IH.
  now destruct (validate format_ok r).
Qed.

(** [importActivities] of the second part, on a text and a world of the
    first. *)
Lemma importActivities_of_world jsonData w :
  Wide.importActivities format_ok (of_text jsonData) (of_world w)
  = (fst (importActivities format_ok jsonData w),
     of_world (snd (importActivities format_ok jsonData w))).
Proof.
  unfold Wide.importActivities, importActivities, Wide.try_catch, try_catch.
  unfold Wide.bind at 1, bind at 1 6.
  destruct jsonData as [j | s]; cbn [of_text Wide.JSON_parse JSON_parse].
  - unfold Wide.ret at 1, ret at 1 5.
    destruct j as [| b | q | s | batch | props];
      try (cbn [Wide.of_json Wide.throw throw];
           unfold Wide.bind, bind, Wide.console, console, emit, Wide.ret, ret;
           cbn [fst snd]; f_equal;
           exact (of_world_emit w (Console (FailedToImport TypeError)))).
    cbn [Wide.of_json]. rewrite filter_of_json, !length_map.
    set (kept := filter (validate format_ok) batch).
    change (Wide.VArr (map Wide.of_json kept)) with (Wide.of_json (JArr kept)).
    unfold Wide.JSON_stringify, JSON_stringify. rewrite written_of_json.
    unfold Wide.bind, bind, Wide.console, console, emit, Wide.ret, ret,
      Wide.localStorage_setItem, localStorage_setItem, Wide.dispatchEvent, dispatchEvent.
    destruct (negb (Nat.eqb (List.length kept) (List.length batch)));
      cbn [fst snd storage trace Wide.storage Wide.trace]; f_equal;
      unfold of_world; cbn [storage trace option_map of_text]; now rewrite !map_app.
  - unfold Wide.throw, throw, Wide.bind, bind, Wide.console, console, emit, Wide.ret, ret.
    cbn [fst snd]. f_equal.
    exact (of_world_emit w (Console (FailedToImport SyntaxError))).
Qed.

(** A call of the first part does to a world what the same call of the
    second part does to it, and returns the same. *)
Lemma perform_of_call c w :
  Wide.perform format_ok (of_call c) (of_world w) = of_world (perform format_ok c w).
Proof.
  destruct c as [id ts agent action type status metadata | | jsonData];
    cbn [of_call Wide.perform perform].
  - now rewrite log_of_world.
  - now rewrite clear_of_world.
  - now rewrite importActivities_of_world.
Qed.

Lemma perform_all_of_calls cs : forall w,
  Wide.perform_all format_ok (map of_call cs) (of_world w)
  = of_world (perform_all format_ok cs w).
Proof.
  induction cs as [|c cs IH]; intros w; [reflexivity|].
  cbn [map Wide.perform_all perform_all fold_left].
  rewrite perform_of_call. apply IH.
Qed.

(** The calls of the first part submit values whose numbers are finite. *)
Lemma submitted_of_call c v :
  In v (Wide.submitted (of_call c)) -> Wide.finite v = true.
Proof.
  destruct c as [id ts agent action type status metadata | | [j | s]];
    cbn [of_call Wide.submitted of_text]; try contradiction.
  - intros [<- | []]. rewrite candidate_of_json. apply of_json_finite.
  - destruct j; cbn [Wide.of_json]; try contradiction.
    intros Hin. apply in_map_iff in Hin. destruct Hin as (x & <- & _).
    apply of_json_finite.
Qed.

End FiniteCalls.
